(** * Focus: current task and AI-generated first step

    A shallow embedding of the [Focus] class (per-user current task, the
    optional first-step suggestion, the response extraction and the three
    content validators), with the properties of its specification.

    Modelling choices.
    - A JavaScript string is a sequence of UTF-16 code units.  Text is
      modelled as [string], whose characters are the code units U+0000 to
      U+00FF; on that range [trim], [toLowerCase], [split], [indexOf],
      [includes], [startsWith] and [substring] are the ECMAScript ones.
      The strings built by [JSON.parse] are kept as lists of code units
      ([list N]) because a [\uXXXX] escape can denote any unit; a parsed
      suggestion that has a unit above U+00FF is outside the text model and
      is reported as [Unmodelled], never as a throw or a success.
    - A thrown value is an [exn]; the [Error] objects the class creates
      carry their message.  [console.log] and [console.error] do not touch
      the state and are left out.
    - The two [Map]s of the class are finite maps keyed by the user id.
    - [generateFirstStep] awaits the model once.  Operations on one [Focus]
      are taken to run one after the other and the model client does not
      call back into the object, so the call is one step. *)

From Stdlib Require Import ZArith NArith Ascii String List Bool Lia.
From stdpp Require Import strings gmap.

Local Open Scope string_scope.
Local Open Scope list_scope.

(** ** Thrown values and results *)

Inductive exn : Type :=
| Error (message : string)   (* [new Error(message)] *)
| SyntaxError                (* thrown by [JSON.parse]; its message is engine text *)
| TypeError.                 (* a property read on [null] or [undefined] *)

Inductive outcome (A : Type) : Type :=
| Ok (a : A)
| Throw (e : exn)
| Unmodelled.

Arguments Ok {A} a.
Arguments Throw {A} e.
Arguments Unmodelled {A}.

#[global] Instance outcome_ret : MRet outcome := fun A a => Ok a.

#[global] Instance outcome_bind : MBind outcome := fun A B k m =>
  match m with
  | Ok a => k a
  | Throw e => Throw e
  | Unmodelled => Unmodelled
  end.

(** ** String primitives *)

Module JS.

(** The double quote, U+0022. *)
Definition dq : string := String "034" EmptyString.

(** [WhiteSpace] and [LineTerminator] code units below U+0100: TAB, LF, VT,
    FF, CR, SP and NBSP. *)
Definition isWhiteSpace (c : ascii) : bool :=
  let n := N_of_ascii c in
  ((9 <=? n) && (n <=? 13) || (n =? 32) || (n =? 160))%N.

Fixpoint trimStart (s : string) : string :=
  match s with
  | EmptyString => EmptyString
  | String c s' => if isWhiteSpace c then trimStart s' else s
  end.

Fixpoint trimEnd (s : string) : string :=
  match s with
  | EmptyString => EmptyString
  | String c s' =>
      match trimEnd s' with
      | EmptyString => if isWhiteSpace c then EmptyString else String c EmptyString
      | t => String c t
      end
  end.

(** [s.trim()] *)
Definition trim (s : string) : string := trimEnd (trimStart s).

(** Lower case of one code unit: A-Z, and U+00C0 to U+00DE except the
    multiplication sign U+00D7, move up by 32. *)
Definition lowerUnit (c : ascii) : ascii :=
  let n := N_of_ascii c in
  if ((65 <=? n) && (n <=? 90)
      || (192 <=? n) && (n <=? 222) && negb (n =? 215))%N
  then ascii_of_N (n + 32) else c.

(** [s.toLowerCase()] *)
Fixpoint toLowerCase (s : string) : string :=
  match s with
  | EmptyString => EmptyString
  | String c s' => String (lowerUnit c) (toLowerCase s')
  end.

(** [s.startsWith(p)] *)
Fixpoint startsWith (s p : string) {struct p} : bool :=
  match p with
  | EmptyString => true
  | String b p' =>
      match s with
      | EmptyString => false
      | String a s' => Ascii.eqb a b && startsWith s' p'
      end
  end.

(** [s.includes(w)] *)
Fixpoint includes (s w : string) : bool :=
  startsWith s w ||
  match s with
  | EmptyString => false
  | String _ s' => includes s' w
  end.

(** [s.split(sep)] for a separator of one code unit. *)
Fixpoint split (sep : ascii) (s : string) : list string :=
  match s with
  | EmptyString => [EmptyString]
  | String c s' =>
      if Ascii.eqb c sep then EmptyString :: split sep s'
      else match split sep s' with
           | w :: ws => String c w :: ws
           | [] => [String c EmptyString]
           end
  end.

(** [s.indexOf(t)] for a [t] of one code unit; -1 when absent. *)
Fixpoint indexOf (s : string) (t : ascii) : Z :=
  match s with
  | EmptyString => (-1)%Z
  | String c s' =>
      if Ascii.eqb c t then 0%Z
      else let i := indexOf s' t in
           if (i =? -1)%Z then (-1)%Z else (i + 1)%Z
  end.

(** [s.substring(n)] for [n >= 0]; a negative [n] counts as 0. *)
Fixpoint drop (n : nat) (s : string) : string :=
  match n, s with
  | O, _ => s
  | S n', String _ s' => drop n' s'
  | S _, EmptyString => EmptyString
  end.

Definition substring (s : string) (n : Z) : string := drop (Z.to_nat n) s.

(** [Math.min(...l)] of a list that is not empty. *)
Definition Math_min (i : Z) (l : list Z) : Z := fold_left Z.min l i.

End JS.

(** ** The validators *)

Definition ACTION_VERBS : list string :=
  [ "write"; "create"; "draft"; "outline"; "list"; "sketch"; "draw"; "jot"; "type";
    "find"; "search"; "look up"; "read"; "review"; "identify"; "gather"; "watch";
    "open"; "set up"; "organize"; "schedule"; "book"; "add"; "download"; "install";
    "email"; "message"; "call"; "ask"; "send";
    "take out"; "move"; "put"; "go to"; "get";
    "run"; "test"; "debug"; "check" ].

Definition RED_FLAG_PHRASES : list string :=
  [ "complete the"; "finish the"; "finalize the"; "implement the"; "build the";
    "design the"; "write the entire"; "write the full"; "create the whole";
    "the entire module"; "the whole chapter"; "the full draft"; "the first draft";
    "the final version"; "the complete list";
    "all of the"; "every part of"; "the rest of the"; "organize all";
    "clean the entire" ].

Definition notActionableMessage (text : string) : string :=
  "Validation Error: Suggestion is not an actionable command. Got: "
    +:+ JS.dq +:+ text +:+ JS.dq.

Definition tooLargeMessage (text : string) : string :=
  "Validation Error: Suggestion implies too large a scope. Got: "
    +:+ JS.dq +:+ text +:+ JS.dq.

Definition notSingleSentenceMessage (text : string) : string :=
  "Validation Error: Suggestion must be a single sentence. Got: "
    +:+ JS.dq +:+ text +:+ JS.dq.

Definition validateIsActionable (text : string) : outcome unit :=
  match JS.split " " (JS.trim text) with
  | [] => Throw TypeError
  | word :: _ =>
      let firstWord := JS.toLowerCase word in
      if negb (existsb (fun verb => JS.startsWith firstWord verb) ACTION_VERBS)
      then Throw (Error (notActionableMessage text))
      else Ok tt
  end.

Definition validateIsShort (text : string) : outcome unit :=
  let lowerText := JS.toLowerCase text in
  if existsb (fun word => JS.includes lowerText word) RED_FLAG_PHRASES
  then Throw (Error (tooLargeMessage text))
  else Ok tt.

Definition validateIsSingleSentence (text : string) : outcome unit :=
  let terminators := [ "."%char; "?"%char; "!"%char ] in
  let indices :=
    List.filter (fun i => negb (i =? -1)%Z) (map (fun t => JS.indexOf text t) terminators) in
  match indices with
  | [] => Ok tt
  | i :: rest =>
      let firstTerminatorIndex := JS.Math_min i rest in
      let remainingText := JS.trim (JS.substring text (firstTerminatorIndex + 1)) in
      if (0 <? String.length remainingText)%nat
      then Throw (Error (notSingleSentenceMessage text))
      else Ok tt
  end.

(** ** JSON.parse *)

#[warnings="-register-all"]
Inductive json : Type :=
| JNull
| JBool (b : bool)
| JNumber (lexeme : string)
| JString (units : list N)
| JArray (items : list json)
| JObject (members : list (list N * json)).

Module JSON.

(** Result of a parser that runs on fuel: the value and the unread input,
    a syntax error, or fuel exhausted. *)
Inductive parsed (A : Type) : Type :=
| Parsed (a : A) (rest : string)
| Invalid
| OutOfFuel.

Arguments Parsed {A} a rest.
Arguments Invalid {A}.
Arguments OutOfFuel {A}.

(** JSON white space: TAB, LF, CR and SP. *)
Definition isWS (c : ascii) : bool :=
  let n := N_of_ascii c in ((n =? 9) || (n =? 10) || (n =? 13) || (n =? 32))%N.

Fixpoint skipWS (s : string) : string :=
  match s with
  | EmptyString => EmptyString
  | String c s' => if isWS c then skipWS s' else s
  end.

Definition isDigit (c : ascii) : bool :=
  let n := N_of_ascii c in ((48 <=? n) && (n <=? 57))%N.

Definition hexValue (c : ascii) : option N :=
  let n := N_of_ascii c in
  if ((48 <=? n) && (n <=? 57))%N then Some (n - 48)%N
  else if ((97 <=? n) && (n <=? 102))%N then Some (n - 87)%N
  else if ((65 <=? n) && (n <=? 70))%N then Some (n - 55)%N
  else None.

Definition hex4 (a b c d : ascii) : option N :=
  match hexValue a, hexValue b, hexValue c, hexValue d with
  | Some x, Some y, Some z, Some w => Some (((x * 16 + y) * 16 + z) * 16 + w)%N
  | _, _, _, _ => None
  end.

(** The unit an escape letter stands for: quote, solidus, reverse solidus,
    b, f, n, r, t. *)
Definition simpleEscape (c : ascii) : option N :=
  let n := N_of_ascii c in
  if (n =? 34)%N then Some 34%N
  else if (n =? 47)%N then Some 47%N
  else if (n =? 92)%N then Some 92%N
  else if (n =? 98)%N then Some 8%N
  else if (n =? 102)%N then Some 12%N
  else if (n =? 110)%N then Some 10%N
  else if (n =? 114)%N then Some 13%N
  else if (n =? 116)%N then Some 9%N
  else None.

(** The characters of a string literal after its opening quote, up to and
    including the closing quote. *)
Fixpoint stringChars (s : string) : option (list N * string) :=
  match s with
  | EmptyString => None
  | String c s' =>
      let n := N_of_ascii c in
      if (n =? 34)%N then Some ([], s')
      else if (n =? 92)%N then
        match s' with
        | EmptyString => None
        | String e s'' =>
            match simpleEscape e with
            | Some u =>
                match stringChars s'' with
                | Some (us, r) => Some (u :: us, r)
                | None => None
                end
            | None =>
                if (N_of_ascii e =? 117)%N then
                  match s'' with
                  | String h1 (String h2 (String h3 (String h4 s5))) =>
                      match hex4 h1 h2 h3 h4 with
                      | Some u =>
                          match stringChars s5 with
                          | Some (us, r) => Some (u :: us, r)
                          | None => None
                          end
                      | None => None
                      end
                  | _ => None
                  end
                else None
            end
        end
      else if (n <? 32)%N then None
      else
        match stringChars s' with
        | Some (us, r) => Some (n :: us, r)
        | None => None
        end
  end.

(** The longest run of digits at the head, and what follows it. *)
Fixpoint digits (s : string) : string * string :=
  match s with
  | EmptyString => (EmptyString, EmptyString)
  | String c s' =>
      if isDigit c then let '(ds, r) := digits s' in (String c ds, r)
      else (EmptyString, s)
  end.

(** A number: an optional minus; then a zero, or a digit from 1 to 9 and
    any digits; then optionally a point and one or more digits; then
    optionally e or E, an optional sign and one or more digits.  The value
    is kept as its lexeme. *)
Definition numberInt (s : string) : option (string * string) :=
  match s with
  | EmptyString => None
  | String c r =>
      if (N_of_ascii c =? 48)%N then Some (String c EmptyString, r)
      else if isDigit c then let '(ds, r') := digits r in Some (String c ds, r')
      else None
  end.

Definition numberFrac (s : string) : option (string * string) :=
  match s with
  | String c r =>
      if (N_of_ascii c =? 46)%N then
        match digits r with
        | (EmptyString, _) => None
        | (ds, r') => Some (String c ds, r')
        end
      else Some (EmptyString, s)
  | EmptyString => Some (EmptyString, s)
  end.

Definition numberExp (s : string) : option (string * string) :=
  match s with
  | String c r =>
      if ((N_of_ascii c =? 101) || (N_of_ascii c =? 69))%N then
        let '(sign, r1) :=
          match r with
          | String g r0 =>
              if ((N_of_ascii g =? 43) || (N_of_ascii g =? 45))%N
              then (String g EmptyString, r0) else (EmptyString, r)
          | EmptyString => (EmptyString, r)
          end in
        match digits r1 with
        | (EmptyString, _) => None
        | (ds, r') => Some (String c (sign +:+ ds), r')
        end
      else Some (EmptyString, s)
  | EmptyString => Some (EmptyString, s)
  end.

Definition number (s : string) : option (string * string) :=
  let '(sign, s1) :=
    match s with
    | String c r => if (N_of_ascii c =? 45)%N then (String c EmptyString, r)
                    else (EmptyString, s)
    | EmptyString => (EmptyString, s)
    end in
  match numberInt s1 with
  | None => None
  | Some (i, s2) =>
      match numberFrac s2 with
      | None => None
      | Some (f, s3) =>
          match numberExp s3 with
          | None => None
          | Some (e, s4) => Some (sign +:+ i +:+ f +:+ e, s4)
          end
      end
  end.

Fixpoint value (fuel : nat) (s : string) : parsed json :=
  match fuel with
  | O => OutOfFuel
  | S fuel' =>
      match skipWS s with
      | EmptyString => Invalid
      | String c r =>
          let n := N_of_ascii c in
          if (n =? 123)%N then
            match skipWS r with
            | String c' r' =>
                if (N_of_ascii c' =? 125)%N then Parsed (JObject []) r'
                else match members fuel' r with
                     | Parsed ms r'' => Parsed (JObject ms) r''
                     | Invalid => Invalid
                     | OutOfFuel => OutOfFuel
                     end
            | EmptyString => Invalid
            end
          else if (n =? 91)%N then
            match skipWS r with
            | String c' r' =>
                if (N_of_ascii c' =? 93)%N then Parsed (JArray []) r'
                else match elements fuel' r with
                     | Parsed vs r'' => Parsed (JArray vs) r''
                     | Invalid => Invalid
                     | OutOfFuel => OutOfFuel
                     end
            | EmptyString => Invalid
            end
          else if (n =? 34)%N then
            match stringChars r with
            | Some (us, r') => Parsed (JString us) r'
            | None => Invalid
            end
          else if JS.startsWith (String c r) "true" then
            Parsed (JBool true) (JS.drop 4 (String c r))
          else if JS.startsWith (String c r) "false" then
            Parsed (JBool false) (JS.drop 5 (String c r))
          else if JS.startsWith (String c r) "null" then
            Parsed JNull (JS.drop 4 (String c r))
          else
            match number (String c r) with
            | Some (lexeme, r') => Parsed (JNumber lexeme) r'
            | None => Invalid
            end
      end
  end
with elements (fuel : nat) (s : string) : parsed (list json) :=
  match fuel with
  | O => OutOfFuel
  | S fuel' =>
      match value fuel' s with
      | Parsed v r =>
          match skipWS r with
          | String c r' =>
              if (N_of_ascii c =? 44)%N then
                match elements fuel' r' with
                | Parsed vs r'' => Parsed (v :: vs) r''
                | Invalid => Invalid
                | OutOfFuel => OutOfFuel
                end
              else if (N_of_ascii c =? 93)%N then Parsed [v] r'
              else Invalid
          | EmptyString => Invalid
          end
      | Invalid => Invalid
      | OutOfFuel => OutOfFuel
      end
  end
with members (fuel : nat) (s : string) : parsed (list (list N * json)) :=
  match fuel with
  | O => OutOfFuel
  | S fuel' =>
      match skipWS s with
      | String q r =>
          if (N_of_ascii q =? 34)%N then
            match stringChars r with
            | Some (key, r1) =>
                match skipWS r1 with
                | String c r2 =>
                    if (N_of_ascii c =? 58)%N then
                      match value fuel' r2 with
                      | Parsed v r3 =>
                          match skipWS r3 with
                          | String d r4 =>
                              if (N_of_ascii d =? 44)%N then
                                match members fuel' r4 with
                                | Parsed ms r5 => Parsed ((key, v) :: ms) r5
                                | Invalid => Invalid
                                | OutOfFuel => OutOfFuel
                                end
                              else if (N_of_ascii d =? 125)%N then Parsed [(key, v)] r4
                              else Invalid
                          | EmptyString => Invalid
                          end
                      | Invalid => Invalid
                      | OutOfFuel => OutOfFuel
                      end
                    else Invalid
                | EmptyString => Invalid
                end
            | None => Invalid
            end
          else Invalid
      | EmptyString => Invalid
      end
  end.

(** Fuel that [value] never exhausts on [text]. *)
Definition fuelFor (text : string) : nat := 2 * String.length text + 1.

(** [JSON.parse(text)]: one value, white space around it, nothing else. *)
Definition parse (text : string) : outcome json :=
  match value (fuelFor text) text with
  | Parsed v r =>
      match skipWS r with
      | EmptyString => Ok v
      | String _ _ => Throw SyntaxError
      end
  | Invalid => Throw SyntaxError
  | OutOfFuel => Unmodelled
  end.

End JSON.

(** ** Response extraction *)

(** The longest prefix of [s] that ends with a closing brace: what a greedy
    [[\s\S]*] followed by a closing brace matches at the head of [s]. *)
Fixpoint throughLastClose (s : string) : option string :=
  match s with
  | EmptyString => None
  | String c s' =>
      match throughLastClose s' with
      | Some p => Some (String c p)
      | None => if Ascii.eqb c "}" then Some (String c EmptyString) else None
      end
  end.

(** [s.match(/\{[\s\S]*\}/)]: the match at the leftmost position where the
    pattern matches; [None] is [null]. *)
Fixpoint regexMatch (s : string) : option string :=
  match s with
  | EmptyString => None
  | String c s' =>
      if Ascii.eqb c "{" then
        match throughLastClose s' with
        | Some p => Some (String c p)
        | None => regexMatch s'
        end
      else regexMatch s'
  end.

Definition unitsOfText (s : string) : list N :=
  map N_of_ascii (list_ascii_of_string s).

(** The text of a list of code units, when all are below U+0100. *)
Fixpoint textOfUnits (us : list N) : option string :=
  match us with
  | [] => Some EmptyString
  | u :: us' =>
      if (u <? 256)%N then
        match textOfUnits us' with
        | Some s => Some (String (ascii_of_N u) s)
        | None => None
        end
      else None
  end.

Definition unitsEqb (a b : list N) : bool :=
  if decide (a = b) then true else false.

(** The own property [name] of a parsed object: a later member with the
    same key replaces an earlier one. *)
Fixpoint ownProperty (name : list N) (ms : list (list N * json)) : option json :=
  match ms with
  | [] => None
  | (k, v) :: ms' =>
      match ownProperty name ms' with
      | Some v' => Some v'
      | None => if unitsEqb k name then Some v else None
      end
  end.

(** [response.suggestion]; [None] is [undefined].  No prototype has a
    property of that name, and reading it on [null] throws. *)
Definition suggestionOf (response : json) : outcome (option json) :=
  match response with
  | JNull => Throw TypeError
  | JObject ms => Ok (ownProperty (unitsOfText "suggestion") ms)
  | JBool _ | JNumber _ | JString _ | JArray _ => Ok None
  end.

Definition noJsonMessage : string :=
  "No valid JSON object found in the LLM response.".

Definition invalidFormatMessage : string :=
  "Invalid response format: JSON must have a " +:+ JS.dq +:+ "suggestion"
    +:+ JS.dq +:+ " field of type string.".

(** The first half of [parseAndStoreSuggestion], up to
    [const suggestionText = response.suggestion]. *)
Definition extractSuggestion (responseText : string) : outcome (list N) :=
  match regexMatch responseText with
  | None => Throw (Error noJsonMessage)
  | Some jsonMatch0 =>
      response ← JSON.parse jsonMatch0;
      field ← suggestionOf response;
      match field with
      | Some (JString units) => Ok units
      | _ => Throw (Error invalidFormatMessage)
      end
  end.

(** ** The Focus class *)

Record User : Type := { id : string }.

Record Task : Type := { description : string }.

Record FirstStepSuggestion : Type :=
  { forTask : Task; suggestionText : string }.

Record Focus : Type :=
  { currentTasks : gmap string Task;
    suggestions : gmap string FirstStepSuggestion }.

(** The model client, which is not part of this class: [executeLLM] gives
    the response text or throws. *)
Record GeminiLLM : Type := { executeLLM : string -> outcome string }.

(** [new Focus()] *)
Definition newFocus : Focus := {| currentTasks := ∅; suggestions := ∅ |}.

Definition setCurrentTask (this : Focus) (user : User) (task : Task) : Focus :=
  {| currentTasks := <[id user := task]> (currentTasks this);
     suggestions := delete (id user) (suggestions this) |}.

Definition clearCurrentTask (this : Focus) (user : User) : Focus :=
  {| currentTasks := delete (id user) (currentTasks this);
     suggestions := delete (id user) (suggestions this) |}.

Definition getCurrentTask (this : Focus) (user : User) : option Task :=
  currentTasks this !! id user.

(** [this.suggestions.get(user.id)], as read by [displayFocus]. *)
Definition getSuggestion (this : Focus) (user : User) : option FirstStepSuggestion :=
  suggestions this !! id user.

Definition promptHead : string :=
  "
            You are a productivity AI. Your only goal is to defeat procrastination.
            Your goal is to provide a single, concrete, physical or digital action that a person can complete in five minutes or less to get started on their task.

            CRITICAL RULES:
            1. The action must be a single sentence.
            2. The action must be a direct concrete command (e.g., " +:+ JS.dq +:+
  "Open..." +:+ JS.dq +:+
  ", " +:+ JS.dq +:+
  "Write..." +:+ JS.dq +:+
  ", " +:+ JS.dq +:+
  "List..." +:+ JS.dq +:+
  "). Do not suggest mental actions like " +:+ JS.dq +:+
  "Think about..." +:+ JS.dq +:+
  ". Give something that is easily executable given your instructions.
            3. Your entire output MUST be ONLY a valid JSON object. Do not add any other text, explanations, or markdown formatting like ```json.
            4. Be accurate - suggest ONLY actions that correspond to starting the task and are helpful.
            5. Do not make unwarranted assumptions about the user's context, tools, and workflow.

            TASK: " +:+ JS.dq.

Definition promptTail : string :=
  JS.dq +:+
  "

            JSON OUTPUT:
            {
            " +:+ JS.dq +:+
  "suggestion" +:+ JS.dq +:+
  ": " +:+ JS.dq +:+
  "The short, actionable command." +:+ JS.dq +:+
  "
            }".

Definition createFirstStepPrompt (task : Task) : string :=
  promptHead +:+ description task +:+ promptTail.

(** The three validator calls of [parseAndStoreSuggestion], in its order. *)
Definition runValidators (suggestionText : string) : outcome unit :=
  validateIsActionable suggestionText;;
  validateIsShort suggestionText;;
  validateIsSingleSentence suggestionText.

Definition parseAndStoreSuggestion (this : Focus) (responseText : string)
    (user : User) (forTask : Task) : outcome unit * Focus :=
  match extractSuggestion responseText with
  | Ok units =>
      match textOfUnits units with
      | Some suggestionText =>
          match runValidators suggestionText with
          | Ok _ =>
              let suggestion :=
                {| forTask := forTask; suggestionText := suggestionText |} in
              (Ok tt,
               {| currentTasks := currentTasks this;
                  suggestions := <[id user := suggestion]> (suggestions this) |})
          | Throw e => (Throw e, this)
          | Unmodelled => (Unmodelled, this)
          end
      | None => (Unmodelled, this)
      end
  | Throw e => (Throw e, this)
  | Unmodelled => (Unmodelled, this)
  end.

Definition noCurrentTaskMessage (user : User) : string :=
  "Cannot generate first step for user " +:+ id user
    +:+ ": no current task is set.".

Definition generateFirstStep (this : Focus) (user : User) (llm : GeminiLLM)
    : outcome unit * Focus :=
  match getCurrentTask this user with
  | None => (Throw (Error (noCurrentTaskMessage user)), this)
  | Some currentTask =>
      let prompt := createFirstStepPrompt currentTask in
      match executeLLM llm prompt with
      | Ok text => parseAndStoreSuggestion this text user currentTask
      | Throw e => (Throw e, this)
      | Unmodelled => (Unmodelled, this)
      end
  end.

(** The states a [Focus] object can be in: the new object, and what the
    three mutating methods make of a state. *)
Inductive reachable : Focus -> Prop :=
| reachable_new : reachable newFocus
| reachable_set this user task :
    reachable this -> reachable (setCurrentTask this user task)
| reachable_clear this user :
    reachable this -> reachable (clearCurrentTask this user)
| reachable_generate this user llm :
    reachable this -> reachable (snd (generateFirstStep this user llm)).

(** * Properties *)

(** ** Facts about the string primitives *)

Section StringFacts.

Implicit Types (s p w t : string) (c : ascii).

Lemma append_cons c s t : String c s +:+ t = String c (s +:+ t).
Proof. reflexivity. Qed.

Lemma append_empty_l s : EmptyString +:+ s = s.
Proof. reflexivity. Qed.


Lemma append_assoc s t w : (s +:+ t) +:+ w = s +:+ t +:+ w.
Proof.
  induction s as [|c s IH]; [reflexivity|]. rewrite !append_cons, IH. reflexivity.
Qed.

(** [startsWith] holds exactly of the strings that begin with [p]. *)
Lemma startsWith_iff s p :
  JS.startsWith s p = true <-> exists rest, s = p +:+ rest.
Proof.
  revert s. induction p as [|b p IH]; intros s; simpl.
  - split; [intros _; exists s; reflexivity|reflexivity].
  - destruct s as [|a s].
    + split; [discriminate|intros [rest Hrest]; discriminate].
    + rewrite andb_true_iff, IH, Ascii.eqb_eq. split.
      * intros [-> [rest ->]]. exists rest. reflexivity.
      * intros [rest Hrest]. rewrite append_cons in Hrest.
        injection Hrest as -> ->. split; [reflexivity|exists rest; reflexivity].
Qed.

(** [includes] holds exactly of the strings that have [w] as a substring. *)
Lemma includes_iff s w :
  JS.includes s w = true <-> exists pre post, s = pre +:+ w +:+ post.
Proof.
  induction s as [|c s IH].
  - cbn [JS.includes]. rewrite orb_false_r, startsWith_iff. split.
    + intros [rest ->]. exists EmptyString, rest. reflexivity.
    + intros ([|a pre] & post & Heq); [exists post; exact Heq|discriminate].
  - cbn [JS.includes]. rewrite orb_true_iff, startsWith_iff, IH. split.
    + intros [[rest ->]|(pre & post & ->)].
      * exists EmptyString, rest. reflexivity.
      * exists (String c pre), post. reflexivity.
    + intros ([|a pre] & post & Heq).
      * left. exists post. exact Heq.
      * right. rewrite append_cons in Heq. injection Heq as _ ->.
        exists pre, post. reflexivity.
Qed.

End StringFacts.


(** ** The state: current task and suggestion *)

Section FocusState.

Implicit Types (this : Focus) (user : User) (task : Task) (llm : GeminiLLM).

(** What [parseAndStoreSuggestion] can do to the state: store a suggestion
    whose text passed the three validators, or nothing. *)
Lemma parseAndStoreSuggestion_cases this responseText user task :
  (exists text,
      runValidators text = Ok tt /\
      parseAndStoreSuggestion this responseText user task =
        (Ok tt,
         {| currentTasks := currentTasks this;
            suggestions :=
              <[id user := {| forTask := task; suggestionText := text |}]>
                (suggestions this) |}))
  \/ (fst (parseAndStoreSuggestion this responseText user task) <> Ok tt /\
      snd (parseAndStoreSuggestion this responseText user task) = this).
Proof.
  unfold parseAndStoreSuggestion.
  destruct (extractSuggestion responseText) as [units|e|];
    [|right; split; [discriminate|reflexivity]..].
  destruct (textOfUnits units) as [text|];
    [|right; split; [discriminate|reflexivity]].
  destruct (runValidators text) as [[]|e|] eqn:Hv;
    [left; exists text; split; [exact Hv|reflexivity]
    |right; split; [discriminate|reflexivity]..].
Qed.

(** The same for [generateFirstStep]: the stored suggestion is for the
    task that is current. *)
Lemma generateFirstStep_cases this user llm :
  (exists task text,
      getCurrentTask this user = Some task /\
      runValidators text = Ok tt /\
      generateFirstStep this user llm =
        (Ok tt,
         {| currentTasks := currentTasks this;
            suggestions :=
              <[id user := {| forTask := task; suggestionText := text |}]>
                (suggestions this) |}))
  \/ (fst (generateFirstStep this user llm) <> Ok tt /\
      snd (generateFirstStep this user llm) = this).
Proof.
  unfold generateFirstStep.
  destruct (getCurrentTask this user) as [task|] eqn:Hcur;
    [|right; split; [discriminate|reflexivity]].
  destruct (executeLLM llm (createFirstStepPrompt task)) as [text|e|];
    [|right; split; [discriminate|reflexivity]..].
  destruct (parseAndStoreSuggestion_cases this text user task)
    as [(txt & Hv & Heq)|Hfail]; [left|right; exact Hfail].
  exists task, txt. auto.
Qed.

(** In a reachable state a stored suggestion is for the current task of
    its user. *)
Lemma reachable_suggestion_for_current this :
  reachable this ->
  forall (k : string) (s : FirstStepSuggestion),
    suggestions this !! k = Some s -> currentTasks this !! k = Some (forTask s).
Proof.
  induction 1 as [|this user task _ IH|this user _ IH|this user llm _ IH];
    intros k s.
  - simpl. rewrite lookup_empty. discriminate.
  - simpl. destruct (decide (id user = k)) as [->|Hne].
    + rewrite lookup_delete_eq. discriminate.
    + rewrite lookup_delete_ne, lookup_insert_ne by exact Hne. apply IH.
  - simpl. destruct (decide (id user = k)) as [->|Hne].
    + rewrite lookup_delete_eq. discriminate.
    + rewrite !lookup_delete_ne by exact Hne. apply IH.
  - destruct (generateFirstStep_cases this user llm)
      as [(task & text & Hcur & _ & ->)|[_ ->]]; [|apply IH].
    simpl. destruct (decide (id user = k)) as [<-|Hne].
    + rewrite lookup_insert_eq. intros [= <-]. exact Hcur.
    + rewrite lookup_insert_ne by exact Hne. apply IH.
Qed.

(** In a reachable state the text of a stored suggestion passed the three
    validators. *)
Lemma reachable_suggestion_validated this :
  reachable this ->
  forall (k : string) (s : FirstStepSuggestion),
    suggestions this !! k = Some s -> runValidators (suggestionText s) = Ok tt.
Proof.
  induction 1 as [|this user task _ IH|this user _ IH|this user llm _ IH];
    intros k s.
  - simpl. rewrite lookup_empty. discriminate.
  - simpl. intros Hs. apply lookup_delete_Some in Hs as [_ Hs]. eauto.
  - simpl. intros Hs. apply lookup_delete_Some in Hs as [_ Hs]. eauto.
  - destruct (generateFirstStep_cases this user llm)
      as [(task & text & _ & Hv & ->)|[_ ->]]; [|apply IH].
    simpl. intros Hs. apply lookup_insert_Some in Hs as [[_ <-]|[_ Hs]]; eauto.
Qed.

(** A validator sequence that succeeds has each of its validators succeed. *)
Lemma runValidators_ok text :
  runValidators text = Ok tt <->
  validateIsActionable text = Ok tt /\
  validateIsShort text = Ok tt /\
  validateIsSingleSentence text = Ok tt.
Proof.
  unfold runValidators.
  destruct (validateIsActionable text) as [[]|e|]; simpl;
    [|split; [discriminate|intros [? _]; discriminate]..].
  destruct (validateIsShort text) as [[]|e|]; simpl;
    [|split; [discriminate|intros (_ & ? & _); discriminate]..].
  destruct (validateIsSingleSentence text) as [[]|e|]; simpl;
    [tauto|split; [discriminate|intros (_ & _ & ?); discriminate]..].
Qed.

End FocusState.

Definition q (s : string) : string := JS.dq +:+ s +:+ JS.dq.

(** A response in the requested format, with the given suggestion text
    (which must need no escape). *)
Definition cleanResponse (suggestion : string) : string :=
  "{" +:+ q "suggestion" +:+ ": " +:+ q suggestion +:+ "}".

(** A model client that answers every prompt with the same outcome. *)
Definition constantLLM (answer : outcome string) : GeminiLLM :=
  {| executeLLM := fun _ => answer |}.

Definition alice : User := {| id := "user123" |}.
Definition vagueTask : Task := {| description := "Get organized for the week" |}.

(** C10: for every user and every task, [setCurrentTask] followed by
    [getCurrentTask] for that user returns the task. *)
Theorem set_then_get_current_task (this : Focus) (user : User) (task : Task) :
  getCurrentTask (setCurrentTask this user task) user = Some task.
Proof. unfold getCurrentTask, setCurrentTask. simpl. apply lookup_insert_eq. Qed.

(** C3: a run of [generateFirstStep] that does not succeed, whatever the
    stage that failed (no current task, the model call, the extraction or
    a validator), returns the state it was given: the suggestions and the
    current tasks are those from before the call. *)
Theorem failed_generate_leaves_state (this : Focus) (user : User) (llm : GeminiLLM) :
  fst (generateFirstStep this user llm) <> Ok tt ->
  snd (generateFirstStep this user llm) = this.
Proof.
  intros Hfail.
  destruct (generateFirstStep_cases this user llm)
    as [(task & text & _ & _ & Heq)|[_ Hsame]]; [|exact Hsame].
  rewrite Heq in Hfail. simpl in Hfail. congruence.
Qed.

(** C4: after [setCurrentTask] or [clearCurrentTask] for a user no
    suggestion is retrievable for that user; and in every reachable state a
    stored suggestion of a user is for the task that is that user's current
    task. *)
Theorem suggestion_never_outlives_task (this : Focus) (user : User) :
  (forall task, getSuggestion (setCurrentTask this user task) user = None) /\
  getSuggestion (clearCurrentTask this user) user = None /\
  (reachable this ->
   forall s, getSuggestion this user = Some s ->
             getCurrentTask this user = Some (forTask s)).
Proof.
  unfold getSuggestion, getCurrentTask. repeat split.
  - intros task. simpl. apply lookup_delete_eq.
  - simpl. apply lookup_delete_eq.
  - intros Hreach s. apply reachable_suggestion_for_current. exact Hreach.
Qed.

(** C5: in every reachable state the text of every stored suggestion
    passed the actionable, the bounded-scope and the single-sentence
    validator; a stored suggestion has no other field than its task and its
    text, so none is pending or unvalidated. *)
Theorem stored_suggestion_passed_validators (this : Focus) (user : User)
    (s : FirstStepSuggestion) :
  reachable this ->
  getSuggestion this user = Some s ->
  validateIsActionable (suggestionText s) = Ok tt /\
  validateIsShort (suggestionText s) = Ok tt /\
  validateIsSingleSentence (suggestionText s) = Ok tt.
Proof.
  intros Hreach Hs. apply runValidators_ok.
  exact (reachable_suggestion_validated this Hreach (id user) s Hs).
Qed.

(** *** A concrete run *)

Definition listThree : string :=
  "List three main tasks you need to accomplish this week.".

Definition thinkAbout : string := "Think about what you want to accomplish.".

Definition afterSet : Focus := setCurrentTask newFocus alice vagueTask.

Definition afterGenerate : Focus :=
  snd (generateFirstStep afterSet alice (constantLLM (Ok (cleanResponse listThree)))).

Definition storedSuggestion : FirstStepSuggestion :=
  {| forTask := vagueTask; suggestionText := listThree |}.

(** The accepted suggestion is the text of the response, for the task that
    was current. *)
Example generate_accepts_listThree :
  generateFirstStep afterSet alice (constantLLM (Ok (cleanResponse listThree)))
  = (Ok tt,
     {| currentTasks := currentTasks afterSet;
        suggestions := <[id alice := storedSuggestion]> (suggestions afterSet) |}).
Proof. vm_compute. reflexivity. Qed.

Lemma afterGenerate_reachable : reachable afterGenerate.
Proof. apply reachable_generate, reachable_set, reachable_new. Qed.

Lemma afterGenerate_suggestion : getSuggestion afterGenerate alice = Some storedSuggestion.
Proof. vm_compute. reflexivity. Qed.

Lemma failed_generate_leaves_state_witness :
  getSuggestion afterGenerate alice = Some storedSuggestion /\
  fst (generateFirstStep afterGenerate alice (constantLLM (Ok (cleanResponse thinkAbout))))
    = Throw (Error (notActionableMessage thinkAbout)) /\
  snd (generateFirstStep afterGenerate alice (constantLLM (Ok (cleanResponse thinkAbout))))
    = afterGenerate.
Proof.
  split; [exact afterGenerate_suggestion|].
  split; [vm_compute; reflexivity|].
  apply failed_generate_leaves_state. vm_compute. discriminate.
Defined.

Lemma suggestion_never_outlives_task_witness :
  reachable afterGenerate /\
  getSuggestion afterGenerate alice = Some storedSuggestion /\
  getCurrentTask afterGenerate alice = Some (forTask storedSuggestion).
Proof.
  split; [exact afterGenerate_reachable|].
  split; [exact afterGenerate_suggestion|].
  exact (proj2 (proj2 (suggestion_never_outlives_task afterGenerate alice))
           afterGenerate_reachable storedSuggestion afterGenerate_suggestion).
Defined.

Lemma stored_suggestion_passed_validators_witness :
  reachable afterGenerate /\
  getSuggestion afterGenerate alice = Some storedSuggestion /\
  validateIsActionable listThree = Ok tt /\
  validateIsShort listThree = Ok tt /\
  validateIsSingleSentence listThree = Ok tt.
Proof.
  split; [exact afterGenerate_reachable|].
  split; [exact afterGenerate_suggestion|].
  exact (stored_suggestion_passed_validators afterGenerate alice storedSuggestion
           afterGenerate_reachable afterGenerate_suggestion).
Defined.

(** ** The validators *)

(** The lower-cased text has one of the red-flag phrases as a substring. *)
Definition containsRedFlag (text : string) : Prop :=
  exists phrase pre post,
    In phrase RED_FLAG_PHRASES /\ JS.toLowerCase text = pre +:+ phrase +:+ post.

Lemma containsRedFlag_iff text :
  existsb (fun word => JS.includes (JS.toLowerCase text) word) RED_FLAG_PHRASES = true
  <-> containsRedFlag text.
Proof.
  rewrite existsb_exists. unfold containsRedFlag. split.
  - intros (phrase & Hin & Hinc). apply includes_iff in Hinc as (pre & post & Heq).
    exists phrase, pre, post. auto.
  - intros (phrase & pre & post & Hin & Heq). exists phrase. split; [exact Hin|].
    apply includes_iff. eauto.
Qed.

(** C8: the bounded-scope validator throws, with its own message and the
    text, exactly when the lower-cased text has a red-flag phrase as a
    substring, and passes otherwise; the match is on substrings, so a
    phrase inside a longer word counts; the list has the phrases named;
    "List three tasks for this week." passes and "Finish the entire
    module." fails. *)
Theorem bounded_scope_fails_iff_red_flag :
  (forall text,
      validateIsShort text = Throw (Error (tooLargeMessage text))
      <-> containsRedFlag text) /\
  (forall text, validateIsShort text = Ok tt <-> ~ containsRedFlag text) /\
  (In "complete the" RED_FLAG_PHRASES /\ In "finish the" RED_FLAG_PHRASES /\
   In "the entire module" RED_FLAG_PHRASES /\ In "all of the" RED_FLAG_PHRASES) /\
  validateIsShort "List three tasks for this week." = Ok tt /\
  validateIsShort "Finish the entire module."
    = Throw (Error (tooLargeMessage "Finish the entire module.")) /\
  validateIsShort "Refinish the table."
    = Throw (Error (tooLargeMessage "Refinish the table.")).
Proof.
  split; [|split; [|split; [|split; [|split]]]].
  - intros text. rewrite <- containsRedFlag_iff. unfold validateIsShort.
    destruct (existsb _ _); split; congruence.
  - intros text. rewrite <- containsRedFlag_iff. unfold validateIsShort.
    destruct (existsb _ _); split; congruence.
  - unfold RED_FLAG_PHRASES. simpl. tauto.
  - reflexivity.
  - reflexivity.
  - reflexivity.
Qed.

(** *** Single sentence *)

Definition isTerminator (c : ascii) : bool :=
  Ascii.eqb c "." || Ascii.eqb c "?" || Ascii.eqb c "!".

(** After the first terminator of the text there is a character that is
    not white space. *)
Definition textAfterFirstTerminator (text : string) : Prop :=
  exists pre t rest c,
    text = pre +:+ String t rest /\
    isTerminator t = true /\
    (forall a, In a (list_ascii_of_string pre) -> isTerminator a = false) /\
    In c (list_ascii_of_string rest) /\ JS.isWhiteSpace c = false.

(** What follows the first terminator, when there is one. *)
Fixpoint restAfterFirstTerminator (s : string) : option string :=
  match s with
  | EmptyString => None
  | String c s' => if isTerminator c then Some s' else restAfterFirstTerminator s'
  end.

(** The index computation of [validateIsSingleSentence] on the three
    results of [indexOf]. *)
Definition firstIndex (i1 i2 i3 : Z) : option Z :=
  match List.filter (fun i => negb (i =? -1)%Z) [i1; i2; i3] with
  | [] => None
  | i :: rest => Some (JS.Math_min i rest)
  end.

Definition shiftIndex (i : Z) : Z := if (i =? -1)%Z then (-1)%Z else (i + 1)%Z.

Section SingleSentence.

Local Open Scope Z_scope.

Ltac index_case i :=
  destruct (Z.eqb_spec i (-1)) as [->|?]; cbv iota;
  [ change (-1 =? -1) with true
  | try replace (i + 1 =? -1) with false by (symmetry; apply Z.eqb_neq; lia) ];
  cbn [negb]; cbv iota.

Lemma firstIndex_shift i1 i2 i3 :
  -1 <= i1 -> -1 <= i2 -> -1 <= i3 ->
  firstIndex (shiftIndex i1) (shiftIndex i2) (shiftIndex i3)
  = option_map Z.succ (firstIndex i1 i2 i3).
Proof.
  intros H1 H2 H3. unfold firstIndex, shiftIndex. cbn [List.filter].
  index_case i1; index_case i2; index_case i3;
    unfold JS.Math_min; cbn [fold_left option_map];
    try reflexivity; f_equal; lia.
Qed.

Lemma firstIndex_zero i1 i2 i3 :
  -1 <= i1 -> -1 <= i2 -> -1 <= i3 ->
  i1 = 0 \/ i2 = 0 \/ i3 = 0 ->
  firstIndex i1 i2 i3 = Some 0.
Proof.
  intros H1 H2 H3 H0. unfold firstIndex. cbn [List.filter].
  index_case i1; index_case i2; index_case i3;
    unfold JS.Math_min; cbn [fold_left];
    try (exfalso; lia); f_equal; lia.
Qed.

Lemma indexOf_lower_bound s t : -1 <= JS.indexOf s t.
Proof.
  induction s as [|c s IH]; cbn [JS.indexOf]; [lia|].
  destruct (Ascii.eqb c t); [lia|].
  destruct (Z.eqb_spec (JS.indexOf s t) (-1)); lia.
Qed.

Lemma indexOf_cons c s t :
  JS.indexOf (String c s) t
  = if Ascii.eqb c t then 0 else shiftIndex (JS.indexOf s t).
Proof. reflexivity. Qed.

(** The index the validator computes is that of the first terminator, and
    the text after it is what the recursive scan finds. *)
Lemma firstIndex_scan s :
  match restAfterFirstTerminator s with
  | None => firstIndex (JS.indexOf s ".") (JS.indexOf s "?") (JS.indexOf s "!") = None
  | Some rest =>
      exists n : nat,
        firstIndex (JS.indexOf s ".") (JS.indexOf s "?") (JS.indexOf s "!")
        = Some (Z.of_nat n) /\
        JS.drop (S n) s = rest
  end.
Proof.
  induction s as [|c s IH]; [reflexivity|].
  cbn [restAfterFirstTerminator]. rewrite !indexOf_cons.
  pose proof (indexOf_lower_bound s ".") as B1.
  pose proof (indexOf_lower_bound s "?") as B2.
  pose proof (indexOf_lower_bound s "!") as B3.
  assert (S1 : -1 <= shiftIndex (JS.indexOf s "."))
    by (unfold shiftIndex; destruct (Z.eqb_spec (JS.indexOf s ".") (-1)); lia).
  assert (S2 : -1 <= shiftIndex (JS.indexOf s "?"))
    by (unfold shiftIndex; destruct (Z.eqb_spec (JS.indexOf s "?") (-1)); lia).
  assert (S3 : -1 <= shiftIndex (JS.indexOf s "!"))
    by (unfold shiftIndex; destruct (Z.eqb_spec (JS.indexOf s "!") (-1)); lia).
  unfold isTerminator.
  destruct (Ascii.eqb c ".") eqn:E1; [|destruct (Ascii.eqb c "?") eqn:E2;
    [|destruct (Ascii.eqb c "!") eqn:E3]]; cbn [orb].
  - exists O. split; [|reflexivity]. cbv iota.
    apply firstIndex_zero;
      repeat match goal with
             | |- context [if Ascii.eqb ?a ?b then _ else _] => destruct (Ascii.eqb a b)
             end; lia.
  - exists O. split; [|reflexivity]. cbv iota.
    apply firstIndex_zero;
      repeat match goal with
             | |- context [if Ascii.eqb ?a ?b then _ else _] => destruct (Ascii.eqb a b)
             end; lia.
  - exists O. split; [|reflexivity]. cbv iota.
    apply firstIndex_zero;
      repeat match goal with
             | |- context [if Ascii.eqb ?a ?b then _ else _] => destruct (Ascii.eqb a b)
             end; lia.
  - rewrite firstIndex_shift by assumption.
    destruct (restAfterFirstTerminator s) as [rest|].
    + destruct IH as (n & -> & Hdrop). exists (S n). split; [|exact Hdrop].
      cbn [option_map]. f_equal. lia.
    + rewrite IH. reflexivity.
Qed.

End SingleSentence.

(** [validateIsSingleSentence] in terms of the text after the first
    terminator. *)
Lemma validateIsSingleSentence_scan text :
  validateIsSingleSentence text =
  match restAfterFirstTerminator text with
  | None => Ok tt
  | Some rest =>
      if (0 <? String.length (JS.trim rest))%nat
      then Throw (Error (notSingleSentenceMessage text))
      else Ok tt
  end.
Proof.
  pose proof (firstIndex_scan text) as H.
  unfold validateIsSingleSentence. cbn [map].
  unfold firstIndex in H.
  destruct (restAfterFirstTerminator text) as [rest|].
  - destruct H as (n & Hidx & Hdrop).
    destruct (List.filter _ _) as [|i l]; [discriminate|].
    injection Hidx as ->. unfold JS.substring.
    replace (Z.to_nat (Z.of_nat n + 1)) with (S n) by lia.
    rewrite Hdrop. reflexivity.
  - destruct (List.filter _ _) as [|i l]; [reflexivity|discriminate].
Qed.

Lemma restAfterFirstTerminator_iff s rest :
  restAfterFirstTerminator s = Some rest <->
  exists pre t,
    s = pre +:+ String t rest /\ isTerminator t = true /\
    (forall a, In a (list_ascii_of_string pre) -> isTerminator a = false).
Proof.
  split.
  - revert rest. induction s as [|c s IH]; intros rest; [discriminate|].
    cbn [restAfterFirstTerminator]. destruct (isTerminator c) eqn:Ec.
    + intros [= ->]. exists EmptyString, c. split; [reflexivity|].
      split; [exact Ec|intros a []].
    + intros H. destruct (IH rest H) as (pre & t & -> & Ht & Hpre).
      exists (String c pre), t. split; [reflexivity|]. split; [exact Ht|].
      intros a [<-|Ha]; [exact Ec|exact (Hpre a Ha)].
  - intros (pre & t & -> & Ht & Hpre). induction pre as [|c pre IH].
    + rewrite append_empty_l. cbn [restAfterFirstTerminator]. rewrite Ht. reflexivity.
    + rewrite append_cons. cbn [restAfterFirstTerminator].
      rewrite (Hpre c) by (left; reflexivity).
      apply IH. intros a Ha. apply Hpre. right. exact Ha.
Qed.

Fixpoint allWhiteSpace (s : string) : bool :=
  match s with
  | EmptyString => true
  | String c s' => JS.isWhiteSpace c && allWhiteSpace s'
  end.

Lemma allWhiteSpace_false s :
  allWhiteSpace s = false <->
  exists c, In c (list_ascii_of_string s) /\ JS.isWhiteSpace c = false.
Proof.
  induction s as [|a s IH]; cbn [allWhiteSpace list_ascii_of_string].
  - split; [discriminate|intros (c & [] & _)].
  - rewrite andb_false_iff, IH. split.
    + intros [Ha|(c & Hc & Hw)]; [exists a|exists c]; split;
        first [left; reflexivity|right; assumption|assumption].
    + intros (c & [<-|Hc] & Hw); [left; exact Hw|right; exists c; auto].
Qed.

Lemma trimStart_allWhiteSpace s : allWhiteSpace (JS.trimStart s) = allWhiteSpace s.
Proof.
  induction s as [|c s IH]; [reflexivity|]. cbn [JS.trimStart].
  destruct (JS.isWhiteSpace c) eqn:Ec; [|reflexivity].
  rewrite IH. cbn [allWhiteSpace]. rewrite Ec. reflexivity.
Qed.

Lemma trimEnd_empty s : JS.trimEnd s = EmptyString <-> allWhiteSpace s = true.
Proof.
  induction s as [|c s IH]; [split; reflexivity|].
  cbn [JS.trimEnd allWhiteSpace]. rewrite andb_true_iff, <- IH.
  destruct (JS.trimEnd s) as [|a t].
  - destruct (JS.isWhiteSpace c); split; try discriminate; try tauto.
    intros [? _]. discriminate.
  - split; [discriminate|intros [_ ?]; discriminate].
Qed.

(** Something is left of a trimmed string exactly when the string has a
    character that is not white space. *)
Lemma trim_nonempty s :
  (0 <? String.length (JS.trim s))%nat = true <->
  exists c, In c (list_ascii_of_string s) /\ JS.isWhiteSpace c = false.
Proof.
  rewrite <- allWhiteSpace_false, <- trimStart_allWhiteSpace.
  unfold JS.trim. pose proof (trimEnd_empty (JS.trimStart s)) as H.
  destruct (JS.trimEnd (JS.trimStart s)) as [|a t].
  - cbn. split; [discriminate|]. intros E.
    rewrite (proj1 H eq_refl) in E. discriminate.
  - cbn. split; [|reflexivity]. intros _.
    destruct (allWhiteSpace (JS.trimStart s)); [|reflexivity].
    destruct H as [_ H]. discriminate (H eq_refl).
Qed.

Lemma single_sentence_throws_iff text :
  validateIsSingleSentence text = Throw (Error (notSingleSentenceMessage text))
  <-> textAfterFirstTerminator text.
Proof.
  rewrite validateIsSingleSentence_scan. unfold textAfterFirstTerminator. split.
  - destruct (restAfterFirstTerminator text) as [rest|] eqn:Hrest; [|discriminate].
    destruct (0 <? String.length (JS.trim rest))%nat eqn:Hlen; [|discriminate].
    intros _. apply restAfterFirstTerminator_iff in Hrest as (pre & t & Heq & Ht & Hpre).
    apply trim_nonempty in Hlen as (c & Hc & Hw).
    exists pre, t, rest, c. auto.
  - intros (pre & t & rest & c & Heq & Ht & Hpre & Hc & Hw).
    assert (Hrest : restAfterFirstTerminator text = Some rest)
      by (apply restAfterFirstTerminator_iff; exists pre, t; auto).
    rewrite Hrest.
    assert (Hlen : (0 <? String.length (JS.trim rest))%nat = true)
      by (apply trim_nonempty; exists c; auto).
    rewrite Hlen. reflexivity.
Qed.

Lemma single_sentence_outcomes text :
  validateIsSingleSentence text = Ok tt \/
  validateIsSingleSentence text = Throw (Error (notSingleSentenceMessage text)).
Proof.
  rewrite validateIsSingleSentence_scan.
  destruct (restAfterFirstTerminator text) as [rest|]; [|left; reflexivity].
  destruct (0 <? String.length (JS.trim rest))%nat; [right|left]; reflexivity.
Qed.

(** C9: the single-sentence validator throws, with its own message and the
    text, exactly when a character that is not white space follows the
    first of the terminators ".", "?" and "!", and passes otherwise; a
    text with no terminator passes; "Open a document." passes, "Open a
    document. Then write a title." fails and "Open a document" passes. *)
Theorem single_sentence_fails_iff_text_after_terminator :
  (forall text,
      validateIsSingleSentence text = Throw (Error (notSingleSentenceMessage text))
      <-> textAfterFirstTerminator text) /\
  (forall text,
      validateIsSingleSentence text = Ok tt <-> ~ textAfterFirstTerminator text) /\
  (forall text,
      (forall a, In a (list_ascii_of_string text) -> isTerminator a = false) ->
      validateIsSingleSentence text = Ok tt) /\
  validateIsSingleSentence "Open a document." = Ok tt /\
  validateIsSingleSentence "Open a document. Then write a title."
    = Throw (Error (notSingleSentenceMessage "Open a document. Then write a title.")) /\
  validateIsSingleSentence "Open a document" = Ok tt.
Proof.
  assert (Hok : forall text,
             validateIsSingleSentence text = Ok tt <-> ~ textAfterFirstTerminator text).
  { intros text. rewrite <- single_sentence_throws_iff.
    destruct (single_sentence_outcomes text) as [H|H]; rewrite H; split;
      congruence. }
  split; [exact single_sentence_throws_iff|]. split; [exact Hok|].
  split; [|split; [reflexivity|split; reflexivity]].
  intros text Hnone. apply Hok.
  intros (pre & t & rest & c & -> & Ht & _).
  rewrite (Hnone t) in Ht; [discriminate|].
  clear. induction pre as [|a pre IH]; [left; reflexivity|right; exact IH].
Qed.

Lemma single_sentence_fails_iff_text_after_terminator_witness :
  validateIsSingleSentence "Open a document" = Ok tt.
Proof.
  apply (proj1 (proj2 (proj2 single_sentence_fails_iff_text_after_terminator))).
  intros a Ha. vm_compute in Ha.
  repeat (destruct Ha as [<-|Ha]; [reflexivity|]). destruct Ha.
Defined.

(** *** Actionable *)

(** The characters of [s] before the first one that [stop] holds of. *)
Fixpoint upTo (stop : ascii -> bool) (s : string) : string :=
  match s with
  | EmptyString => EmptyString
  | String c s' => if stop c then EmptyString else String c (upTo stop s')
  end.

(** The first token of the trimmed text, tokens being delimited by white
    space. *)
Definition firstToken (text : string) : string :=
  upTo JS.isWhiteSpace (JS.trim text).

(** The lower-cased first token begins with one of the action verbs. *)
Definition matchesActionVerb (text : string) : Prop :=
  exists verb rest,
    In verb ACTION_VERBS /\ JS.toLowerCase (firstToken text) = verb +:+ rest.

(** No character of the verb is white space other than the space. *)
Fixpoint spaceOnly (verb : string) : bool :=
  match verb with
  | EmptyString => true
  | String c v => (negb (JS.isWhiteSpace c) || Ascii.eqb c " ") && spaceOnly v
  end.

Section Actionable.

Lemma split_head sep s :
  exists ws, JS.split sep s = upTo (fun c => Ascii.eqb c sep) s :: ws.
Proof.
  induction s as [|c s [ws IH]]; cbn [JS.split upTo]; [eexists; reflexivity|].
  destruct (Ascii.eqb c sep); [eexists; reflexivity|].
  rewrite IH. eexists. reflexivity.
Qed.

Lemma lowerUnit_whiteSpace c : JS.isWhiteSpace c = true -> JS.lowerUnit c = c.
Proof.
  destruct c as [[] [] [] [] [] [] [] []]; vm_compute; intros H;
    first [reflexivity|discriminate H].
Qed.

Lemma space_isWhiteSpace : JS.isWhiteSpace " " = true.
Proof. reflexivity. Qed.

(** Cutting the word at the first space or at the first white space makes
    no difference to whether it begins with a verb. *)
Lemma startsWith_token verb s :
  spaceOnly verb = true ->
  JS.startsWith (JS.toLowerCase (upTo (fun c => Ascii.eqb c " ") s)) verb
  = JS.startsWith (JS.toLowerCase (upTo JS.isWhiteSpace s)) verb.
Proof.
  revert s. induction verb as [|b verb IH]; intros s Hverb; [reflexivity|].
  cbn [spaceOnly] in Hverb. apply andb_true_iff in Hverb as [Hb Hverb].
  destruct s as [|a s]; [reflexivity|]. cbn [upTo].
  destruct (Ascii.eqb a " ") eqn:Hsp.
  - apply Ascii.eqb_eq in Hsp as ->. rewrite space_isWhiteSpace. reflexivity.
  - destruct (JS.isWhiteSpace a) eqn:Hws.
    + cbn [JS.toLowerCase JS.startsWith].
      rewrite (lowerUnit_whiteSpace a Hws).
      destruct (Ascii.eqb a b) eqn:Hab; [|reflexivity].
      apply Ascii.eqb_eq in Hab as <-. rewrite Hws, Hsp in Hb. discriminate.
    + cbn [JS.toLowerCase JS.startsWith]. rewrite (IH s Hverb). reflexivity.
Qed.

Lemma ACTION_VERBS_spaceOnly verb : In verb ACTION_VERBS -> spaceOnly verb = true.
Proof.
  assert (H : forallb spaceOnly ACTION_VERBS = true) by (vm_compute; reflexivity).
  rewrite forallb_forall in H. apply H.
Qed.

Lemma existsb_agree {A : Type} (f g : A -> bool) (l : list A) :
  (forall x, In x l -> f x = g x) -> existsb f l = existsb g l.
Proof.
  induction l as [|x l IH]; intros H; [reflexivity|]. cbn [existsb].
  rewrite (H x) by (left; reflexivity).
  rewrite IH by (intros y Hy; apply H; right; exact Hy). reflexivity.
Qed.

(** [validateIsActionable] in terms of the first token. *)
Lemma validateIsActionable_token text :
  validateIsActionable text =
  if existsb (fun verb => JS.startsWith (JS.toLowerCase (firstToken text)) verb)
       ACTION_VERBS
  then Ok tt else Throw (Error (notActionableMessage text)).
Proof.
  unfold validateIsActionable, firstToken.
  destruct (split_head " " (JS.trim text)) as [ws ->].
  rewrite (existsb_agree
             (fun verb =>
                JS.startsWith
                  (JS.toLowerCase (upTo (fun c => Ascii.eqb c " ") (JS.trim text))) verb)
             (fun verb =>
                JS.startsWith (JS.toLowerCase (upTo JS.isWhiteSpace (JS.trim text))) verb)).
  - destruct (existsb _ _); reflexivity.
  - intros verb Hin. apply startsWith_token, ACTION_VERBS_spaceOnly, Hin.
Qed.

Lemma matchesActionVerb_iff text :
  existsb (fun verb => JS.startsWith (JS.toLowerCase (firstToken text)) verb)
    ACTION_VERBS = true
  <-> matchesActionVerb text.
Proof.
  rewrite existsb_exists. unfold matchesActionVerb. split.
  - intros (verb & Hin & Hsw). apply startsWith_iff in Hsw as [rest Heq].
    exists verb, rest. auto.
  - intros (verb & rest & Hin & Heq). exists verb. split; [exact Hin|].
    apply startsWith_iff. eauto.
Qed.

End Actionable.

(** C7: the actionable validator passes exactly when the lower-cased first
    white-space-delimited token of the trimmed text begins with an entry of
    the verb list, and throws with its own message and the text otherwise;
    the list has the entries named, the multi-word ones among them; "Open
    the document." passes, "Think about your options." and "You should
    write an outline." fail. *)
Theorem actionable_passes_iff_first_token_matches :
  (forall text, validateIsActionable text = Ok tt <-> matchesActionVerb text) /\
  (forall text,
      validateIsActionable text = Throw (Error (notActionableMessage text))
      <-> ~ matchesActionVerb text) /\
  (In "look up" ACTION_VERBS /\ In "set up" ACTION_VERBS /\
   In "take out" ACTION_VERBS /\ In "go to" ACTION_VERBS /\
   In "write" ACTION_VERBS /\ In "open" ACTION_VERBS /\ In "check" ACTION_VERBS) /\
  validateIsActionable "Open the document." = Ok tt /\
  validateIsActionable "Think about your options."
    = Throw (Error (notActionableMessage "Think about your options.")) /\
  validateIsActionable "You should write an outline."
    = Throw (Error (notActionableMessage "You should write an outline.")).
Proof.
  split; [|split; [|split; [|split; [|split]]]].
  - intros text. rewrite <- matchesActionVerb_iff, validateIsActionable_token.
    destruct (existsb _ _); split; congruence.
  - intros text. rewrite <- matchesActionVerb_iff, validateIsActionable_token.
    destruct (existsb _ _); split; congruence.
  - unfold ACTION_VERBS. simpl. tauto.
  - reflexivity.
  - reflexivity.
  - reflexivity.
Qed.

(** A first token has no space in it, so the entries with a space in them
    match no text: a suggestion that opens with "Look up" is rejected. *)
Example actionable_look_up :
  validateIsActionable "Look up the address."
  = Throw (Error (notActionableMessage "Look up the address.")).
Proof. reflexivity. Qed.

(** ** The validator pipeline *)

(** The validators [parseAndStoreSuggestion] calls, in the order of its
    calls. *)
Inductive validator : Type := Actionable | BoundedScope | SingleSentence.

Definition codePipeline : list validator := [Actionable; BoundedScope; SingleSentence].

Definition validate (v : validator) (text : string) : outcome unit :=
  match v with
  | Actionable => validateIsActionable text
  | BoundedScope => validateIsShort text
  | SingleSentence => validateIsSingleSentence text
  end.

Definition validatorMessage (v : validator) (text : string) : string :=
  match v with
  | Actionable => notActionableMessage text
  | BoundedScope => tooLargeMessage text
  | SingleSentence => notSingleSentenceMessage text
  end.

Definition isOk {A : Type} (r : outcome A) : bool :=
  match r with Ok _ => true | _ => false end.

(** The first predicate of a pipeline that does not hold of the text. *)
Definition firstFailure {P : Type} (holds : P -> string -> bool)
    (pipeline : list P) (text : string) : option P :=
  List.find (fun p => negb (holds p text)) pipeline.

(** The pipeline as the specification words it: a non-empty check on the
    trimmed candidate, then the three validators. *)
Inductive specPredicate : Type := NonEmpty | Content (v : validator).

Definition specPipeline : list specPredicate :=
  [NonEmpty; Content Actionable; Content BoundedScope; Content SingleSentence].

Definition specHolds (p : specPredicate) (text : string) : bool :=
  match p with
  | NonEmpty => negb (String.length (JS.trim text) =? 0)%nat
  | Content v => isOk (validate v text)
  end.

Section Pipeline.

Lemma validate_outcomes v text :
  validate v text = Ok tt \/ validate v text = Throw (Error (validatorMessage v text)).
Proof.
  destruct v; cbn [validate validatorMessage].
  - rewrite validateIsActionable_token. destruct (existsb _ _); auto.
  - unfold validateIsShort. destruct (existsb _ _); auto.
  - apply single_sentence_outcomes.
Qed.

Lemma append_cancel_l p s t : p +:+ s = p +:+ t -> s = t.
Proof.
  induction p as [|c p IH]; [trivial|]. rewrite !append_cons. intros [= H]. auto.
Qed.

Lemma append_length s t : String.length (s +:+ t) = String.length s + String.length t.
Proof.
  induction s as [|c s IH]; [reflexivity|]. rewrite append_cons. cbn [String.length].
  rewrite IH. reflexivity.
Qed.

Lemma append_cancel_r s t c : s +:+ String c EmptyString = t +:+ String c EmptyString -> s = t.
Proof.
  revert t. induction s as [|a s IH]; intros [|b t]; rewrite ?append_cons, ?append_empty_l.
  - reflexivity.
  - intros [= _ H]. destruct t; discriminate H.
  - intros [= _ H]. destruct s; discriminate H.
  - intros [= -> H]. f_equal. apply IH. exact H.
Qed.

(** The message of a validator tells which validator threw and on which
    text. *)
Lemma validatorMessage_inj v1 v2 t1 t2 :
  validatorMessage v1 t1 = validatorMessage v2 t2 -> v1 = v2 /\ t1 = t2.
Proof.
  destruct v1, v2; cbn [validatorMessage];
    unfold notActionableMessage, tooLargeMessage, notSingleSentenceMessage;
    intros H; try (exfalso; discriminate H);
    (split; [reflexivity|]);
    apply append_cancel_l, append_cancel_l in H; apply append_cancel_r in H; exact H.
Qed.

Lemma runValidators_firstFailure text :
  runValidators text =
  match firstFailure (fun v t => isOk (validate v t)) codePipeline text with
  | None => Ok tt
  | Some v => Throw (Error (validatorMessage v text))
  end.
Proof.
  unfold runValidators, firstFailure, codePipeline. cbn [List.find validate].
  destruct (validate_outcomes Actionable text) as [H|H]; cbn [validate] in H;
    rewrite H; cbn [isOk negb mbind outcome_bind]; [|reflexivity].
  destruct (validate_outcomes BoundedScope text) as [H2|H2]; cbn [validate] in H2;
    rewrite H2; cbn [isOk negb mbind outcome_bind]; [|reflexivity].
  destruct (validate_outcomes SingleSentence text) as [H3|H3]; cbn [validate] in H3;
    rewrite H3; reflexivity.
Qed.

Lemma trimmed_empty_not_actionable text :
  JS.trim text = EmptyString ->
  validateIsActionable text = Throw (Error (notActionableMessage text)).
Proof.
  intros H. unfold validateIsActionable. rewrite H. reflexivity.
Qed.

End Pipeline.

(** C1, as the code has it: the pipeline is the three validators
    Actionable, Bounded scope, Single sentence in that order; the first
    one that fails ends it with an [Error] whose message tells which
    validator failed and on which text; there is no non-empty validator,
    and a candidate whose trimmed text is empty fails the actionable
    validator. *)
Theorem validator_pipeline_order :
  (forall text,
      runValidators text =
      match firstFailure (fun v t => isOk (validate v t)) codePipeline text with
      | None => Ok tt
      | Some v => Throw (Error (validatorMessage v text))
      end) /\
  (forall v1 v2 t1 t2,
      validatorMessage v1 t1 = validatorMessage v2 t2 -> v1 = v2 /\ t1 = t2) /\
  (forall text,
      String.length (JS.trim text) = 0%nat ->
      runValidators text = Throw (Error (validatorMessage Actionable text))).
Proof.
  split; [exact runValidators_firstFailure|]. split; [exact validatorMessage_inj|].
  intros text Hlen.
  assert (Htrim : JS.trim text = EmptyString)
    by (destruct (JS.trim text); [reflexivity|discriminate Hlen]).
  unfold runValidators. rewrite (trimmed_empty_not_actionable text Htrim).
  reflexivity.
Qed.

Lemma validator_pipeline_order_witness :
  String.length (JS.trim "   ") = 0%nat /\
  runValidators "   " = Throw (Error (validatorMessage Actionable "   ")).
Proof.
  split; [reflexivity|].
  apply (proj2 (proj2 validator_pipeline_order)). reflexivity.
Defined.

(** C1 as the specification states it fails on the empty candidate: the
    specified pipeline names the non-empty check as the one that fails,
    the code consults the actionable validator first and reports that
    one. *)
Lemma empty_candidate_reported_as_not_actionable :
  String.length (JS.trim EmptyString) = 0%nat /\
  firstFailure specHolds specPipeline EmptyString = Some NonEmpty /\
  firstFailure (fun v t => isOk (validate v t)) codePipeline EmptyString
    = Some Actionable /\
  runValidators EmptyString = Throw (Error (notActionableMessage EmptyString)).
Proof. repeat split. Qed.

(** ** The precondition of [generateFirstStep] *)

(** The precondition as the specification words it, for a call that is
    given a task: the current task is set and has the description of the
    given one. *)
Inductive preconditionFailure : Type := NoCurrentTask | TaskMismatch.

Definition specPrecondition (this : Focus) (user : User) (task : Task)
    : option preconditionFailure :=
  match getCurrentTask this user with
  | None => Some NoCurrentTask
  | Some current =>
      if String.eqb (description current) (description task) then None
      else Some TaskMismatch
  end.

Definition essayTask : Task := {| description := "Write initial draft of essay" |}.

(** C2, as the code has it: [generateFirstStep] is given the user and the
    model client and no task.  When the user has no current task it throws
    an [Error] whose message names the user and says that no current task
    is set, and the state is as before.  When the user has a current task
    the call goes on with that task, whatever it is: the prompt is built
    from it and a stored suggestion is for it; no failure is for a
    mismatch of tasks. *)
Theorem generateFirstStep_requires_current_task
    (this : Focus) (user : User) (llm : GeminiLLM) :
  (getCurrentTask this user = None ->
   generateFirstStep this user llm
   = (Throw (Error (noCurrentTaskMessage user)), this)) /\
  (forall task,
      getCurrentTask this user = Some task ->
      generateFirstStep this user llm =
      match executeLLM llm (createFirstStepPrompt task) with
      | Ok text => parseAndStoreSuggestion this text user task
      | Throw e => (Throw e, this)
      | Unmodelled => (Unmodelled, this)
      end) /\
  (forall task,
      getCurrentTask this user = Some task ->
      fst (generateFirstStep this user llm) = Ok tt ->
      exists text,
        getSuggestion (snd (generateFirstStep this user llm)) user
        = Some {| forTask := task; suggestionText := text |}).
Proof.
  unfold generateFirstStep. split; [|split].
  - intros ->. reflexivity.
  - intros task ->. reflexivity.
  - intros task Hcur. fold (generateFirstStep this user llm). intros Hok.
    destruct (generateFirstStep_cases this user llm)
      as [(task' & text & Hcur' & _ & Heq)|[Hfail _]]; [|contradiction].
    rewrite Hcur in Hcur'. injection Hcur' as <-.
    exists text. rewrite Heq. unfold getSuggestion. cbn [snd suggestions].
    apply lookup_insert_eq.
Qed.

Lemma generateFirstStep_requires_current_task_witness :
  getCurrentTask newFocus alice = None /\
  generateFirstStep newFocus alice (constantLLM (Ok (cleanResponse listThree)))
  = (Throw (Error "Cannot generate first step for user user123: no current task is set."),
     newFocus).
Proof.
  split; [reflexivity|].
  apply (proj1 (generateFirstStep_requires_current_task newFocus alice
                  (constantLLM (Ok (cleanResponse listThree))))).
  reflexivity.
Defined.

(** C2 as the specification states it fails: with "Get organized for the
    week" as the current task, a caller who means another task violates
    the specified precondition by a mismatch, yet the call has no task to
    compare, succeeds and stores a suggestion for the current task. *)
Lemma generate_ignores_task_mismatch :
  specPrecondition afterSet alice essayTask = Some TaskMismatch /\
  fst (generateFirstStep afterSet alice (constantLLM (Ok (cleanResponse listThree))))
  = Ok tt /\
  getSuggestion
    (snd (generateFirstStep afterSet alice (constantLLM (Ok (cleanResponse listThree)))))
    alice
  = Some {| forTask := vagueTask; suggestionText := listThree |}.
Proof. split; [|split]; vm_compute; reflexivity. Qed.

(** ** Response extraction *)

Section Extraction.

Implicit Types (s pre mid post : string).

Definition hasNo (c : ascii) (s : string) : Prop :=
  ~ In c (list_ascii_of_string s).

Lemma hasNo_cons c a s : hasNo c (String a s) <-> a <> c /\ hasNo c s.
Proof. unfold hasNo. cbn [list_ascii_of_string In]. tauto. Qed.

Lemma hasNo_empty c : hasNo c EmptyString.
Proof. intros []. Qed.

Lemma hasNo_append c s t : hasNo c (s +:+ t) <-> hasNo c s /\ hasNo c t.
Proof.
  induction s as [|a s IH].
  - rewrite append_empty_l. split; [intros H; split; [apply hasNo_empty|exact H]|tauto].
  - rewrite append_cons, !hasNo_cons, IH. tauto.
Qed.

Lemma throughLastClose_none s : throughLastClose s = None <-> hasNo "}" s.
Proof.
  induction s as [|c s IH]; cbn [throughLastClose].
  - split; [intros _; apply hasNo_empty|reflexivity].
  - rewrite hasNo_cons, <- IH. destruct (throughLastClose s) as [p|].
    + split; [discriminate|intros [_ ?]; discriminate].
    + destruct (Ascii.eqb_spec c "}") as [->|Hne].
      * split; [discriminate|intros [? _]; congruence].
      * tauto.
Qed.

(** [throughLastClose] cuts after the last closing brace. *)
Lemma throughLastClose_some s p :
  throughLastClose s = Some p <->
  exists mid post, s = mid +:+ "}" +:+ post /\ hasNo "}" post /\ p = mid +:+ "}".
Proof.
  revert p. induction s as [|c s IH]; intros p; cbn [throughLastClose].
  - split; [discriminate|]. intros ([|a mid] & post & Heq & _); discriminate Heq.
  - destruct (throughLastClose s) as [p'|] eqn:Hs.
    + split.
      * intros [= <-]. destruct (proj1 (IH p') eq_refl) as (mid & post & -> & Hpost & ->).
        exists (String c mid), post. auto.
      * intros (mid & post & Heq & Hpost & ->). destruct mid as [|a mid].
        -- rewrite append_empty_l in Heq. change ("}" +:+ post) with (String "}" post) in Heq.
           injection Heq as -> ->. apply throughLastClose_none in Hpost. congruence.
        -- rewrite append_cons in Heq. injection Heq as -> Heq.
           rewrite append_cons. do 2 f_equal.
           assert (H : Some p' = Some (mid +:+ "}")) by (apply IH; eauto).
           congruence.
    + apply throughLastClose_none in Hs. split.
      * destruct (Ascii.eqb_spec c "}") as [->|Hne]; [|discriminate].
        intros [= <-]. exists EmptyString, s. auto.
      * intros (mid & post & Heq & Hpost & ->). destruct mid as [|a mid].
        -- rewrite append_empty_l in Heq. change ("}" +:+ post) with (String "}" post) in Heq.
           injection Heq as -> ->. reflexivity.
        -- rewrite append_cons in Heq. injection Heq as -> ->.
           apply hasNo_append in Hs as [_ Hs]. apply hasNo_append in Hs as [Hs _].
           exfalso. apply Hs. left. reflexivity.
Qed.

(** The span from the first opening brace through the last closing brace
    after it. *)
Definition braceSpan (s span : string) : Prop :=
  exists pre mid post,
    s = pre +:+ "{" +:+ mid +:+ "}" +:+ post /\
    hasNo "{" pre /\ hasNo "}" post /\
    span = "{" +:+ mid +:+ "}".

Lemma regexMatch_some s span : regexMatch s = Some span <-> braceSpan s span.
Proof.
  unfold braceSpan. split.
  - revert span. induction s as [|c s IH]; intros span; cbn [regexMatch]; [discriminate|].
    assert (Hrec : regexMatch s = Some span -> c <> "{"%char ->
                   exists pre mid post,
                     String c s = pre +:+ "{" +:+ mid +:+ "}" +:+ post /\
                     hasNo "{" pre /\ hasNo "}" post /\ span = "{" +:+ mid +:+ "}").
    { intros H Hc. destruct (IH span H) as (pre & mid & post & -> & Hpre & Hpost & ->).
      exists (String c pre), mid, post. rewrite hasNo_cons. auto. }
    destruct (Ascii.eqb_spec c "{") as [->|Hne]; [|auto].
    destruct (throughLastClose s) as [p|] eqn:Hs.
    + intros [= <-]. apply throughLastClose_some in Hs as (mid & post & -> & Hpost & ->).
      exists EmptyString, mid, post.
      split; [reflexivity|]. split; [apply hasNo_empty|]. auto.
    + intros H. exfalso. apply throughLastClose_none in Hs.
      destruct (IH span H) as (pre & mid & post & -> & _).
      apply hasNo_append in Hs as [_ Hs]. apply hasNo_append in Hs as [_ Hs].
      apply hasNo_append in Hs as [_ Hs]. apply hasNo_append in Hs as [Hs _].
      apply Hs. left. reflexivity.
  - intros (pre & mid & post & -> & Hpre & Hpost & ->).
    induction pre as [|a pre IH].
    + rewrite append_empty_l. change ("{" +:+ mid +:+ "}" +:+ post)
        with (String "{" (mid +:+ "}" +:+ post)).
      cbn [regexMatch]. rewrite Ascii.eqb_refl.
      assert (H : throughLastClose (mid +:+ "}" +:+ post) = Some (mid +:+ "}"))
        by (apply throughLastClose_some; eauto).
      rewrite H. reflexivity.
    + apply hasNo_cons in Hpre as [Ha Hpre]. rewrite append_cons. cbn [regexMatch].
      destruct (Ascii.eqb_spec a "{") as [->|_]; [contradiction|]. apply IH. exact Hpre.
Qed.

(** There is a match as soon as an opening brace has a closing brace
    somewhere after it. *)
Lemma regexMatch_none s :
  regexMatch s = None <-> ~ exists a b c, s = a +:+ "{" +:+ b +:+ "}" +:+ c.
Proof.
  split.
  - intros Hnone (a & b & c & ->). revert Hnone. induction a as [|x a IH].
    + rewrite append_empty_l. change ("{" +:+ b +:+ "}" +:+ c)
        with (String "{" (b +:+ "}" +:+ c)).
      cbn [regexMatch]. rewrite Ascii.eqb_refl.
      destruct (throughLastClose (b +:+ "}" +:+ c)) eqn:H; [discriminate|].
      apply throughLastClose_none in H. apply hasNo_append in H as [_ H].
      apply hasNo_append in H as [H _]. exfalso. apply H. left. reflexivity.
    + rewrite append_cons. cbn [regexMatch].
      destruct (Ascii.eqb x "{"); [|exact IH].
      destruct (throughLastClose _); [discriminate|exact IH].
  - intros Hno. destruct (regexMatch s) as [span|] eqn:H; [|reflexivity].
    exfalso. apply Hno. apply regexMatch_some in H as (pre & mid & post & -> & _).
    eauto.
Qed.

End Extraction.

(** ** The JSON parser does not run out of fuel *)

Module JSONFacts.

Import JSON.

Abbreviation len := String.length.

Lemma skipWS_length s : len (skipWS s) <= len s.
Proof.
  induction s as [|c s IH]; cbn [skipWS]; [lia|].
  destruct (isWS c); cbn [String.length] in *; lia.
Qed.

Lemma skipWS_cons s c r : skipWS s = String c r -> len r < len s.
Proof.
  intros H. pose proof (skipWS_length s) as L. rewrite H in L.
  cbn [String.length] in L. lia.
Qed.

Lemma drop_length n s : len (JS.drop n s) <= len s.
Proof.
  revert s. induction n as [|n IH]; intros [|c s]; cbn [JS.drop String.length]; try lia.
  specialize (IH s). lia.
Qed.

Lemma digits_length s ds r : digits s = (ds, r) -> len r <= len s.
Proof.
  revert ds r. induction s as [|c s IH]; intros ds r; cbn [digits].
  - intros [= <- <-]. cbn. lia.
  - destruct (isDigit c).
    + destruct (digits s) as [ds' r'] eqn:E. intros [= <- <-].
      specialize (IH ds' r' eq_refl). cbn [String.length]. lia.
    + intros [= <- <-]. lia.
Qed.

Lemma stringChars_length s us r : stringChars s = Some (us, r) -> len r < len s.
Proof.
  remember (len s) as n eqn:Hn. revert s us r Hn.
  induction n as [n IH] using lt_wf_ind. intros s us r -> H.
  destruct s as [|c s]; [discriminate|]. cbn [stringChars] in H.
  destruct (N_of_ascii c =? 34)%N.
  { injection H as <- <-. cbn [String.length]. lia. }
  destruct (N_of_ascii c =? 92)%N.
  - destruct s as [|e s]; [discriminate|].
    destruct (simpleEscape e).
    + destruct (stringChars s) as [[us' r']|] eqn:E; [|discriminate].
      injection H as <- <-.
      assert (len r' < len s) by (eapply (IH (len s)); [cbn; lia|reflexivity|exact E]).
      cbn [String.length]. lia.
    + destruct (N_of_ascii e =? 117)%N; [|discriminate].
      destruct s as [|h1 [|h2 [|h3 [|h4 s]]]]; try discriminate.
      destruct (hex4 h1 h2 h3 h4); [|discriminate].
      destruct (stringChars s) as [[us' r']|] eqn:E; [|discriminate].
      injection H as <- <-.
      assert (len r' < len s) by (eapply (IH (len s)); [cbn; lia|reflexivity|exact E]).
      cbn [String.length]. lia.
  - destruct (N_of_ascii c <? 32)%N; [discriminate|].
    destruct (stringChars s) as [[us' r']|] eqn:E; [|discriminate].
    injection H as <- <-.
    assert (len r' < len s) by (eapply (IH (len s)); [cbn; lia|reflexivity|exact E]).
    cbn [String.length]. lia.
Qed.

Lemma numberInt_length s i r : numberInt s = Some (i, r) -> len r <= len s.
Proof.
  destruct s as [|c s]; [discriminate|]. cbn [numberInt].
  destruct (N_of_ascii c =? 48)%N.
  - intros [= <- <-]. cbn. lia.
  - destruct (isDigit c); [|discriminate].
    destruct (digits s) as [ds r'] eqn:E. intros [= <- <-].
    apply digits_length in E. cbn [String.length]. lia.
Qed.

Lemma numberFrac_length s f r : numberFrac s = Some (f, r) -> len r <= len s.
Proof.
  destruct s as [|c s]; cbn [numberFrac]; [intros [= <- <-]; lia|].
  destruct (N_of_ascii c =? 46)%N; [|intros [= <- <-]; lia].
  destruct (digits s) as [ds r'] eqn:E. apply digits_length in E.
  destruct ds; [discriminate|]. intros [= <- <-]. cbn [String.length]. lia.
Qed.

Lemma numberExp_length s e r : numberExp s = Some (e, r) -> len r <= len s.
Proof.
  destruct s as [|c s]; cbn [numberExp]; [intros [= <- <-]; lia|].
  destruct ((N_of_ascii c =? 101) || (N_of_ascii c =? 69))%N; [|intros [= <- <-]; lia].
  assert (Hsign : forall sign r1,
             match s with
             | String g r0 =>
                 if ((N_of_ascii g =? 43) || (N_of_ascii g =? 45))%N
                 then (String g EmptyString, r0) else (EmptyString, s)
             | EmptyString => (EmptyString, s)
             end = (sign, r1) -> len r1 <= len s).
  { intros sign r1. destruct s as [|g r0]; [intros [= <- <-]; lia|].
    destruct ((N_of_ascii g =? 43) || (N_of_ascii g =? 45))%N;
      intros [= <- <-]; cbn [String.length]; lia. }
  destruct (match s with EmptyString => _ | String g r0 => _ end) as [sign r1].
  specialize (Hsign _ _ eq_refl).
  destruct (digits r1) as [ds r'] eqn:E'. apply digits_length in E'.
  destruct ds; [discriminate|]. intros [= <- <-]. cbn [String.length]. lia.
Qed.

Lemma number_length s lexeme r : number s = Some (lexeme, r) -> len r <= len s.
Proof.
  unfold number.
  assert (Hsign : forall sign s1,
             match s with
             | String c r0 =>
                 if (N_of_ascii c =? 45)%N then (String c EmptyString, r0)
                 else (EmptyString, s)
             | EmptyString => (EmptyString, s)
             end = (sign, s1) -> len s1 <= len s).
  { intros sign s1. destruct s as [|c r0]; [intros [= <- <-]; lia|].
    destruct (N_of_ascii c =? 45)%N; intros [= <- <-]; cbn [String.length]; lia. }
  destruct (match s with EmptyString => _ | String c r0 => _ end) as [sign s1].
  specialize (Hsign _ _ eq_refl).
  destruct (numberInt s1) as [[i s2]|] eqn:E1; [|discriminate].
  destruct (numberFrac s2) as [[f s3]|] eqn:E2; [|discriminate].
  destruct (numberExp s3) as [[e s4]|] eqn:E3; [|discriminate].
  apply numberInt_length in E1. apply numberFrac_length in E2.
  apply numberExp_length in E3. intros [= <- <-]. lia.
Qed.

(** One step of the case analysis a parser equation calls for. *)
Ltac parser_step H :=
  match type of H with
  | context [match ?x with _ => _ end] =>
      destruct x eqn:?; try discriminate H
  end.

Ltac length_facts :=
  repeat match goal with
         | E : skipWS _ = String _ _ |- _ => apply skipWS_cons in E
         | E : stringChars _ = Some _ |- _ => apply stringChars_length in E
         | E : number _ = Some _ |- _ => apply number_length in E
         end.

(** What a parser leaves unread is no longer than what it was given. *)
Lemma parsed_length n :
  (forall s v r, value n s = Parsed v r -> len r <= len s) /\
  (forall s vs r, elements n s = Parsed vs r -> len r <= len s) /\
  (forall s ms r, members n s = Parsed ms r -> len r <= len s).
Proof.
  induction n as [|n (IHv & IHe & IHm)]; [repeat split; discriminate|].
  split; [|split]; intros s x r H.
  - cbn [value] in H. repeat parser_step H; injection H as <- <-;
      repeat match goal with
             | E : members n _ = Parsed _ _ |- _ => apply IHm in E
             | E : elements n _ = Parsed _ _ |- _ => apply IHe in E
             end;
      length_facts;
      repeat match goal with
             | |- context [match ?x with EmptyString => _ | String _ _ => _ end] =>
                 destruct x
             end;
      cbn [String.length] in *; lia.
  - cbn [elements] in H. repeat parser_step H; injection H as <- <-;
      repeat match goal with
             | E : value n _ = Parsed _ _ |- _ => apply IHv in E
             | E : elements n _ = Parsed _ _ |- _ => apply IHe in E
             end;
      length_facts; cbn [String.length] in *; lia.
  - cbn [members] in H. repeat parser_step H; injection H as <- <-;
      repeat match goal with
             | E : value n _ = Parsed _ _ |- _ => apply IHv in E
             | E : members n _ = Parsed _ _ |- _ => apply IHm in E
             end;
      length_facts; cbn [String.length] in *; lia.
Qed.

(** With fuel above twice the length of the input no parser stops for
    want of fuel. *)
Lemma enough_fuel n :
  (forall s, 2 * len s + 1 <= n -> value n s <> OutOfFuel) /\
  (forall s, 2 * len s + 2 <= n -> elements n s <> OutOfFuel) /\
  (forall s, 2 * len s + 2 <= n -> members n s <> OutOfFuel).
Proof.
  induction n as [|n (IHv & IHe & IHm)]; [repeat split; intros s Hn; lia|].
  pose proof (parsed_length n) as (Lv & Le & Lm).
  assert (Hfuel : forall s,
             (2 * len s + 1 <= S n -> value (S n) s <> OutOfFuel) /\
             (2 * len s + 2 <= S n -> elements (S n) s <> OutOfFuel) /\
             (2 * len s + 2 <= S n -> members (S n) s <> OutOfFuel)).
  { intros s. split; [|split]; intros Hn H;
      [cbn [value] in H|cbn [elements] in H|cbn [members] in H];
      repeat parser_step H;
      repeat match goal with
             | E : value n _ = Parsed _ _ |- _ => apply Lv in E
             end;
      length_facts;
      match goal with
      | E : value n _ = OutOfFuel |- _ => revert E; apply IHv
      | E : elements n _ = OutOfFuel |- _ => revert E; apply IHe
      | E : members n _ = OutOfFuel |- _ => revert E; apply IHm
      end;
      cbn [String.length] in *; lia. }
  split; [|split]; intros s; apply Hfuel.
Qed.

Lemma parse_modelled text : parse text <> Unmodelled.
Proof.
  unfold parse, fuelFor.
  destruct (value (2 * len text + 1) text) as [v r| |] eqn:E.
  - destruct (skipWS r); discriminate.
  - discriminate.
  - exfalso. revert E. apply (enough_fuel (2 * len text + 1)). lia.
Qed.

End JSONFacts.

(** ** What the extraction yields *)

(** The parsed response is an object whose [suggestion] property is the
    string of the given code units. *)
Definition hasStringSuggestion (response : json) (units : list N) : Prop :=
  exists ms,
    response = JObject ms /\
    ownProperty (unitsOfText "suggestion") ms = Some (JString units).

Definition newline : string := String "010" EmptyString.

(** "Sure!", a line break, a fenced block with the response in it. *)
Definition fencedResponse (suggestion : string) : string :=
  "Sure!" +:+ newline +:+ "```json" +:+ newline
    +:+ cleanResponse suggestion +:+ newline +:+ "```".

Section ExtractionSpec.

Import JSON JSONFacts.

Lemma parse_throws text e : parse text = Throw e -> e = SyntaxError.
Proof.
  unfold parse. destruct (value _ _) as [v r| |]; [|congruence|discriminate].
  destruct (skipWS r); [discriminate|congruence].
Qed.

(** A text that begins with an opening brace parses to an object or not at
    all. *)
Lemma parse_object rest response :
  parse (String "{" rest) = Ok response -> exists ms, response = JObject ms.
Proof.
  unfold parse. destruct (fuelFor (String "{" rest)) as [|n]; [discriminate|].
  cbn [value]. change (skipWS (String "{" rest)) with (String "{" rest).
  cbv beta iota.
  assert (E : (N_of_ascii "{" =? 123)%N = true) by reflexivity. rewrite E. clear E.
  destruct (skipWS rest) as [|c r]; [discriminate|].
  destruct (N_of_ascii c =? 125)%N.
  - destruct (skipWS r); [|discriminate]. intros [= <-]. eauto.
  - destruct (members n rest) as [ms r'| |]; [|discriminate..].
    destruct (skipWS r'); [|discriminate]. intros [= <-]. eauto.
Qed.

Lemma braceSpan_head raw span : braceSpan raw span -> exists rest, span = String "{" rest.
Proof. intros (pre & mid & post & _ & _ & _ & ->). eexists. reflexivity. Qed.

(** The three ways the extraction goes once there is a span, and the one
    where there is none. *)
Lemma extractSuggestion_cases raw :
  match regexMatch raw with
  | None => extractSuggestion raw = Throw (Error noJsonMessage)
  | Some span =>
      (parse span = Throw SyntaxError /\ extractSuggestion raw = Throw SyntaxError)
      \/ (exists ms,
             parse span = Ok (JObject ms) /\
             extractSuggestion raw =
             match ownProperty (unitsOfText "suggestion") ms with
             | Some (JString units) => Ok units
             | _ => Throw (Error invalidFormatMessage)
             end)
  end.
Proof.
  unfold extractSuggestion.
  destruct (regexMatch raw) as [span|] eqn:Hspan; [|reflexivity].
  apply regexMatch_some, braceSpan_head in Hspan as [rest ->].
  destruct (parse (String "{" rest)) as [response|e|] eqn:Hparse.
  - right. destruct (parse_object rest response Hparse) as [ms ->].
    exists ms. split; [reflexivity|]. cbn [mbind outcome_bind suggestionOf].
    destruct (ownProperty _ ms) as [[]|]; reflexivity.
  - left. apply parse_throws in Hparse as Hse. subst e. split; reflexivity.
  - exfalso. exact (parse_modelled _ Hparse).
Qed.

Lemma extractSuggestion_ok raw units :
  extractSuggestion raw = Ok units <->
  exists span response,
    braceSpan raw span /\ parse span = Ok response /\
    hasStringSuggestion response units.
Proof.
  pose proof (extractSuggestion_cases raw) as H. unfold hasStringSuggestion. split.
  - destruct (regexMatch raw) as [span|] eqn:Hspan; [|congruence].
    apply regexMatch_some in Hspan.
    destruct H as [[_ ->]|(ms & Hparse & ->)]; [discriminate|].
    destruct (ownProperty _ ms) as [[]|] eqn:Hown; try discriminate.
    intros [= <-]. exists span, (JObject ms). eauto.
  - intros (span & response & Hspan & Hparse & ms & -> & Hown).
    apply regexMatch_some in Hspan. rewrite Hspan in H.
    destruct H as [[Hthrow _]|(ms' & Hparse' & ->)]; [congruence|].
    rewrite Hparse in Hparse'. injection Hparse' as <-. rewrite Hown. reflexivity.
Qed.

Lemma extractSuggestion_throws raw :
  (exists e, extractSuggestion raw = Throw e) <->
  regexMatch raw = None
  \/ exists span,
       braceSpan raw span /\
       (parse span = Throw SyntaxError
        \/ exists response,
             parse span = Ok response /\
             forall units, ~ hasStringSuggestion response units).
Proof.
  pose proof (extractSuggestion_cases raw) as H. unfold hasStringSuggestion. split.
  - intros [e He]. destruct (regexMatch raw) as [span|] eqn:Hspan; [right|left; reflexivity].
    apply regexMatch_some in Hspan. exists span. split; [exact Hspan|].
    destruct H as [[Hparse _]|(ms & Hparse & Heq)]; [left; exact Hparse|right].
    exists (JObject ms). split; [exact Hparse|].
    intros units (ms' & [= <-] & Hown). rewrite Hown in Heq. congruence.
  - intros [Hnone|(span & Hspan & Hbad)].
    + rewrite Hnone in H. eauto.
    + apply regexMatch_some in Hspan. rewrite Hspan in H.
      destruct Hbad as [Hparse|(response & Hparse & Hnot)].
      * destruct H as [[_ ->]|(ms & Hparse' & _)]; [eauto|congruence].
      * destruct H as [[_ ->]|(ms & Hparse' & ->)]; [eauto|].
        rewrite Hparse in Hparse'. injection Hparse' as ->.
        destruct (ownProperty _ ms) as [[| | |units| |]|] eqn:Hown; eauto.
        exfalso. apply (Hnot units). eauto.
Qed.

Lemma extractSuggestion_modelled raw : extractSuggestion raw <> Unmodelled.
Proof.
  pose proof (extractSuggestion_cases raw) as H.
  destruct (regexMatch raw) as [span|]; [|congruence].
  destruct H as [[_ ->]|(ms & _ & ->)]; [discriminate|].
  destruct (ownProperty _ ms) as [[]|]; discriminate.
Qed.

(** Text before the first opening brace and after the last closing brace
    does not change what is extracted. *)
Lemma extractSuggestion_surrounded pre mid post :
  hasNo "{" pre -> hasNo "}" post ->
  extractSuggestion (pre +:+ "{" +:+ mid +:+ "}" +:+ post)
  = extractSuggestion ("{" +:+ mid +:+ "}").
Proof.
  intros Hpre Hpost. unfold extractSuggestion.
  assert (H1 : regexMatch (pre +:+ "{" +:+ mid +:+ "}" +:+ post)
               = Some ("{" +:+ mid +:+ "}")).
  { apply regexMatch_some. exists pre, mid, post. auto. }
  assert (H2 : regexMatch ("{" +:+ mid +:+ "}") = Some ("{" +:+ mid +:+ "}")).
  { apply regexMatch_some. exists EmptyString, mid, EmptyString.
    rewrite append_empty_l. split; [|split; [apply hasNo_empty|split;
      [apply hasNo_empty|reflexivity]]].
    change ("}" +:+ EmptyString) with "}". reflexivity. }
  rewrite H1, H2. reflexivity.
Qed.

End ExtractionSpec.

(** C6: the extraction takes the span from the first opening brace
    through the last closing brace, parses it as JSON and yields the
    string that is the [suggestion] property of the parsed object.  It
    throws exactly when there is no such span, or the span is not valid
    JSON, or the parsed object has no [suggestion] property that is a
    string.  On the clean response with "Open the file." it yields that
    text; text before the first opening brace and after the last closing
    brace, such as prose or a markdown fence, changes nothing. *)
Theorem extraction_takes_brace_span_and_suggestion :
  (forall raw span, regexMatch raw = Some span <-> braceSpan raw span) /\
  (forall raw,
      regexMatch raw = None <->
      ~ exists a b c, raw = a +:+ "{" +:+ b +:+ "}" +:+ c) /\
  (forall raw units,
      extractSuggestion raw = Ok units <->
      exists span response,
        braceSpan raw span /\ JSON.parse span = Ok response /\
        hasStringSuggestion response units) /\
  (forall raw,
      (exists e, extractSuggestion raw = Throw e) <->
      regexMatch raw = None
      \/ exists span,
           braceSpan raw span /\
           (JSON.parse span = Throw SyntaxError
            \/ exists response,
                 JSON.parse span = Ok response /\
                 forall units, ~ hasStringSuggestion response units)) /\
  (forall raw, extractSuggestion raw <> Unmodelled) /\
  extractSuggestion (cleanResponse "Open the file.") = Ok (unitsOfText "Open the file.") /\
  (forall pre mid post,
      hasNo "{" pre -> hasNo "}" post ->
      extractSuggestion (pre +:+ "{" +:+ mid +:+ "}" +:+ post)
      = extractSuggestion ("{" +:+ mid +:+ "}")) /\
  extractSuggestion (fencedResponse "Write one sentence.")
  = Ok (unitsOfText "Write one sentence.").
Proof.
  split; [exact regexMatch_some|]. split; [exact regexMatch_none|].
  split; [exact extractSuggestion_ok|]. split; [exact extractSuggestion_throws|].
  split; [exact extractSuggestion_modelled|].
  split; [vm_compute; reflexivity|].
  split; [exact extractSuggestion_surrounded|vm_compute; reflexivity].
Qed.

Lemma extraction_takes_brace_span_and_suggestion_witness :
  hasNo "{" "Here it is: " /\ hasNo "}" " Done." /\
  extractSuggestion ("Here it is: " +:+ "{" +:+ (q "suggestion" +:+ ":" +:+ q "Open the file.")
                       +:+ "}" +:+ " Done.")
  = Ok (unitsOfText "Open the file.").
Proof.
  assert (H1 : hasNo "{" "Here it is: ").
  { intros H. vm_compute in H. repeat (destruct H as [H|H]; [discriminate H|]). exact H. }
  assert (H2 : hasNo "}" " Done.").
  { intros H. vm_compute in H. repeat (destruct H as [H|H]; [discriminate H|]). exact H. }
  split; [exact H1|]. split; [exact H2|].
  rewrite (proj1 (proj2 (proj2 (proj2 (proj2 (proj2 (proj2
             extraction_takes_brace_span_and_suggestion))))))
             "Here it is: " (q "suggestion" +:+ ":" +:+ q "Open the file.") " Done." H1 H2).
  vm_compute. reflexivity.
Defined.

(** * Further properties of the class *)

(** ** The state operations *)

Definition bob : User := {| id := "user456" |}.

Section StateLaws.

Implicit Types (this : Focus) (user other : User) (task : Task) (llm : GeminiLLM).

Lemma Focus_eq this that :
  currentTasks this = currentTasks that ->
  suggestions this = suggestions that ->
  this = that.
Proof. destruct this, that. cbn. intros -> ->. reflexivity. Qed.

(** What a call for one user does to the entries of a user with another
    id: nothing. *)
Lemma generateFirstStep_other this user other llm :
  id other <> id user ->
  getCurrentTask (snd (generateFirstStep this user llm)) other
    = getCurrentTask this other /\
  getSuggestion (snd (generateFirstStep this user llm)) other
    = getSuggestion this other.
Proof.
  intros Hne.
  destruct (generateFirstStep_cases this user llm)
    as [(task & text & _ & _ & ->)|[_ ->]]; [|split; reflexivity].
  unfold getCurrentTask, getSuggestion. cbn [snd currentTasks suggestions].
  split; [reflexivity|]. apply lookup_insert_ne. congruence.
Qed.

End StateLaws.

(** X1: the three mutating methods, called for one user, leave the current
    task and the suggestion of every user with another id as they were. *)
Theorem other_users_untouched (this : Focus) (user other : User) (task : Task)
    (llm : GeminiLLM) :
  id other <> id user ->
  (getCurrentTask (setCurrentTask this user task) other = getCurrentTask this other /\
   getSuggestion (setCurrentTask this user task) other = getSuggestion this other) /\
  (getCurrentTask (clearCurrentTask this user) other = getCurrentTask this other /\
   getSuggestion (clearCurrentTask this user) other = getSuggestion this other) /\
  (getCurrentTask (snd (generateFirstStep this user llm)) other
     = getCurrentTask this other /\
   getSuggestion (snd (generateFirstStep this user llm)) other
     = getSuggestion this other).
Proof.
  intros Hne. assert (Hne' : id user <> id other) by congruence.
  unfold getCurrentTask, getSuggestion, setCurrentTask, clearCurrentTask.
  cbn [currentTasks suggestions].
  split; [|split].
  - split; [apply lookup_insert_ne|apply lookup_delete_ne]; exact Hne'.
  - split; apply lookup_delete_ne; exact Hne'.
  - apply generateFirstStep_other. exact Hne.
Qed.

Lemma other_users_untouched_witness :
  id bob <> id alice /\
  getCurrentTask (setCurrentTask afterGenerate bob essayTask) alice = Some vagueTask /\
  getSuggestion (clearCurrentTask afterGenerate bob) alice = Some storedSuggestion.
Proof.
  assert (Hne : id alice <> id bob) by (vm_compute; discriminate).
  split; [vm_compute; discriminate|]. split.
  - rewrite (proj1 (proj1 (other_users_untouched afterGenerate bob alice essayTask
                             (constantLLM Unmodelled) Hne))).
    vm_compute. reflexivity.
  - rewrite (proj2 (proj1 (proj2 (other_users_untouched afterGenerate bob alice essayTask
                                    (constantLLM Unmodelled) Hne)))).
    vm_compute. reflexivity.
Defined.

(** X2: a later [setCurrentTask] or [clearCurrentTask] for a user wipes
    what an earlier [setCurrentTask] for that user did: setting twice is
    setting the second task, clearing after setting is clearing, and
    clearing twice is clearing once. *)
Theorem last_task_change_wins (this : Focus) (user : User) (task1 task2 : Task) :
  setCurrentTask (setCurrentTask this user task1) user task2
    = setCurrentTask this user task2 /\
  clearCurrentTask (setCurrentTask this user task1) user = clearCurrentTask this user /\
  setCurrentTask (clearCurrentTask this user) user task2 = setCurrentTask this user task2 /\
  clearCurrentTask (clearCurrentTask this user) user = clearCurrentTask this user.
Proof.
  unfold setCurrentTask, clearCurrentTask. cbn [currentTasks suggestions].
  repeat split; apply Focus_eq; cbn [currentTasks suggestions];
    rewrite ?insert_insert_eq, ?delete_insert_eq, ?insert_delete_eq, ?delete_delete_eq;
    reflexivity.
Qed.

(** X3: for a user that has neither a current task nor a suggestion,
    [setCurrentTask] followed by [clearCurrentTask] gives back the state
    there was. *)
Theorem set_then_clear_restores (this : Focus) (user : User) (task : Task) :
  getCurrentTask this user = None ->
  getSuggestion this user = None ->
  clearCurrentTask (setCurrentTask this user task) user = this.
Proof.
  unfold getCurrentTask, getSuggestion, setCurrentTask, clearCurrentTask.
  intros Hcur Hsug. apply Focus_eq; cbn [currentTasks suggestions].
  - rewrite delete_insert_eq. apply delete_id. exact Hcur.
  - rewrite delete_delete_eq. apply delete_id. exact Hsug.
Qed.

Lemma set_then_clear_restores_witness :
  getCurrentTask afterGenerate bob = None /\
  getSuggestion afterGenerate bob = None /\
  clearCurrentTask (setCurrentTask afterGenerate bob essayTask) bob = afterGenerate.
Proof.
  assert (H1 : getCurrentTask afterGenerate bob = None) by (vm_compute; reflexivity).
  assert (H2 : getSuggestion afterGenerate bob = None) by (vm_compute; reflexivity).
  split; [exact H1|]. split; [exact H2|].
  exact (set_then_clear_restores afterGenerate bob essayTask H1 H2).
Defined.

(** X4: after [clearCurrentTask] for a user, [getCurrentTask] finds no
    task for that user and [generateFirstStep] throws the error that says
    no current task is set, whatever the model client would answer, and
    leaves the state as the clearing left it. *)
Theorem clear_then_generate_throws (this : Focus) (user : User) (llm : GeminiLLM) :
  getCurrentTask (clearCurrentTask this user) user = None /\
  generateFirstStep (clearCurrentTask this user) user llm
  = (Throw (Error (noCurrentTaskMessage user)), clearCurrentTask this user).
Proof.
  assert (H : getCurrentTask (clearCurrentTask this user) user = None).
  { unfold getCurrentTask, clearCurrentTask. cbn [currentTasks]. apply lookup_delete_eq. }
  split; [exact H|]. unfold generateFirstStep. rewrite H. reflexivity.
Qed.

(** ** Success and failure of [generateFirstStep] *)

Section Generate.

Implicit Types (this : Focus) (user : User) (task : Task) (llm : GeminiLLM).

Lemma generateFirstStep_currentTasks this user llm :
  currentTasks (snd (generateFirstStep this user llm)) = currentTasks this.
Proof.
  destruct (generateFirstStep_cases this user llm)
    as [(task & text & _ & _ & ->)|[_ ->]]; reflexivity.
Qed.

Lemma generateFirstStep_succeeds this user llm :
  fst (generateFirstStep this user llm) = Ok tt <->
  exists task raw units text,
    getCurrentTask this user = Some task /\
    executeLLM llm (createFirstStepPrompt task) = Ok raw /\
    extractSuggestion raw = Ok units /\
    textOfUnits units = Some text /\
    runValidators text = Ok tt /\
    snd (generateFirstStep this user llm)
    = {| currentTasks := currentTasks this;
         suggestions :=
           <[id user := {| forTask := task; suggestionText := text |}]>
             (suggestions this) |}.
Proof.
  unfold generateFirstStep, parseAndStoreSuggestion. split.
  - destruct (getCurrentTask this user) as [task|] eqn:Hcur; [|discriminate].
    destruct (executeLLM llm (createFirstStepPrompt task)) as [raw|e|] eqn:Hllm;
      [|discriminate..].
    destruct (extractSuggestion raw) as [units|e|] eqn:Hext; [|discriminate..].
    destruct (textOfUnits units) as [text|] eqn:Htext; [|discriminate].
    destruct (runValidators text) as [[]|e|] eqn:Hv; [|discriminate..].
    intros _. exists task, raw, units, text. auto 10.
  - intros (task & raw & units & text & -> & -> & -> & -> & -> & _). reflexivity.
Qed.

End Generate.


(** X6: a successful [generateFirstStep] replaces the suggestion an
    earlier call stored for the user: the state after the two calls is the
    state after the second call alone, whether the first succeeded or
    not. *)
Theorem regenerate_replaces (this : Focus) (user : User) (llm1 llm2 : GeminiLLM) :
  fst (generateFirstStep this user llm2) = Ok tt ->
  generateFirstStep (snd (generateFirstStep this user llm1)) user llm2
  = generateFirstStep this user llm2.
Proof.
  intros Hok.
  apply generateFirstStep_succeeds in Hok
    as (task & raw & units & text & Hcur & Hllm & Hext & Htext & Hv & Hstate).
  pose proof (generateFirstStep_currentTasks this user llm1) as Hsame.
  assert (Hgen : forall that,
             currentTasks that = currentTasks this ->
             generateFirstStep that user llm2
             = (Ok tt,
                {| currentTasks := currentTasks this;
                   suggestions :=
                     <[id user := {| forTask := task; suggestionText := text |}]>
                       (suggestions that) |})).
  { intros that Hthat. unfold generateFirstStep, parseAndStoreSuggestion, getCurrentTask.
    unfold getCurrentTask in Hcur. rewrite Hthat, Hcur, Hllm, Hext, Htext, Hv.
    reflexivity. }
  rewrite (Hgen _ Hsame), (Hgen this eq_refl). f_equal. f_equal.
  destruct (generateFirstStep_cases this user llm1)
    as [(task1 & text1 & _ & _ & ->)|[_ ->]]; [|reflexivity].
  cbn [snd suggestions]. apply insert_insert_eq.
Qed.

Lemma regenerate_replaces_witness :
  fst (generateFirstStep afterSet alice (constantLLM (Ok (cleanResponse listThree)))) = Ok tt /\
  generateFirstStep
    (snd (generateFirstStep afterSet alice
            (constantLLM (Ok (cleanResponse "Open your calendar.")))))
    alice (constantLLM (Ok (cleanResponse listThree)))
  = generateFirstStep afterSet alice (constantLLM (Ok (cleanResponse listThree))).
Proof.
  assert (H : fst (generateFirstStep afterSet alice
                     (constantLLM (Ok (cleanResponse listThree)))) = Ok tt)
    by (vm_compute; reflexivity).
  split; [exact H|].
  exact (regenerate_replaces afterSet alice
           (constantLLM (Ok (cleanResponse "Open your calendar.")))
           (constantLLM (Ok (cleanResponse listThree))) H).
Defined.

(** X7: what [parseAndStoreSuggestion] throws tells the stage that
    failed: the message for no JSON object when there is no brace span,
    the [SyntaxError] of [JSON.parse] when the span is not JSON, the
    message for a wrong format when the parsed object has no string
    [suggestion], or the message of the first validator that rejects the
    extracted text; these, and the message of [generateFirstStep] for a
    missing current task, are all different from one another. *)
Theorem thrown_error_tells_stage :
  (forall this raw user task,
      match fst (parseAndStoreSuggestion this raw user task) with
      | Throw e =>
          (e = Error noJsonMessage /\ regexMatch raw = None)
          \/ (e = SyntaxError /\
              exists span, regexMatch raw = Some span /\ JSON.parse span = Throw SyntaxError)
          \/ (e = Error invalidFormatMessage /\
              exists span response,
                regexMatch raw = Some span /\ JSON.parse span = Ok response /\
                forall units, ~ hasStringSuggestion response units)
          \/ (exists v text units,
                e = Error (validatorMessage v text) /\
                extractSuggestion raw = Ok units /\ textOfUnits units = Some text /\
                firstFailure (fun v t => isOk (validate v t)) codePipeline text = Some v)
      | _ => True
      end) /\
  noJsonMessage <> invalidFormatMessage /\
  (forall v text,
      validatorMessage v text <> noJsonMessage /\
      validatorMessage v text <> invalidFormatMessage) /\
  (forall user v text,
      noCurrentTaskMessage user <> noJsonMessage /\
      noCurrentTaskMessage user <> invalidFormatMessage /\
      noCurrentTaskMessage user <> validatorMessage v text).
Proof.
  split; [|split; [|split]].
  - intros this raw user task. unfold parseAndStoreSuggestion.
    pose proof (extractSuggestion_cases raw) as Hcases.
    destruct (extractSuggestion raw) as [units|e|] eqn:Hext; cbn [fst].
    + destruct (textOfUnits units) as [text|] eqn:Htext; [|exact I].
      rewrite runValidators_firstFailure.
      destruct (firstFailure _ codePipeline text) as [v|] eqn:Hfirst; cbn [fst]; [|exact I].
      right. right. right. exists v, text, units. auto.
    + destruct (regexMatch raw) as [span|] eqn:Hspan.
      * destruct Hcases as [[Hparse Heq]|(ms & Hparse & Heq)].
        -- right. left. split; [congruence|]. exists span. auto.
        -- right. right. left.
           destruct (ownProperty _ ms) as [[| | |units| |]|] eqn:Hown;
             try discriminate Heq;
             (split; [congruence|]); exists span, (JObject ms);
             (split; [reflexivity|]); (split; [exact Hparse|]);
             intros units' (ms' & [= <-] & Hown'); congruence.
      * left. split; [congruence|reflexivity].
    + exact I.
  - discriminate.
  - intros [] text; split; discriminate.
  - intros user [] text; repeat split; discriminate.
Qed.

(** ** The prompt *)

Section Prompt.

Lemma append_cancel_suffix s t x : s +:+ x = t +:+ x -> s = t.
Proof.
  revert t. induction s as [|a s IH]; intros [|b t] H.
  - reflexivity.
  - exfalso. apply (f_equal String.length) in H.
    rewrite append_empty_l, append_cons in H. cbn [String.length] in H.
    rewrite append_length in H. lia.
  - exfalso. apply (f_equal String.length) in H.
    rewrite append_empty_l, append_cons in H. cbn [String.length] in H.
    rewrite append_length in H. lia.
  - rewrite !append_cons in H. injection H as -> H. f_equal. apply IH. exact H.
Qed.

Lemma promptHead_ends_with_TASK : exists pre, promptHead = pre +:+ "TASK: " +:+ JS.dq.
Proof.
  exists (String.substring 0 (String.length promptHead - 7) promptHead).
  vm_compute. reflexivity.
Qed.

End Prompt.

(** X8: the prompt has the description of the task, as it is, between
    double quotes after "TASK: "; tasks with different descriptions get
    different prompts. *)
Theorem prompt_quotes_description :
  (forall task,
      exists pre post,
        createFirstStepPrompt task
        = pre +:+ ("TASK: " +:+ JS.dq +:+ description task +:+ JS.dq) +:+ post) /\
  (forall task1 task2,
      createFirstStepPrompt task1 = createFirstStepPrompt task2 -> task1 = task2).
Proof.
  split.
  - intros task. destruct promptHead_ends_with_TASK as [pre Hpre].
    exists pre, (JS.drop 1 promptTail). unfold createFirstStepPrompt. rewrite Hpre.
    change promptTail with (JS.dq +:+ JS.drop 1 promptTail).
    rewrite !append_assoc. reflexivity.
  - intros [d1] [d2]. unfold createFirstStepPrompt. cbn [description]. intros H.
    apply append_cancel_l in H.
    apply append_cancel_suffix in H. congruence.
Qed.

(** ** More on the validators *)

(** The entries of the verb list that have no space in them. *)
Definition singleWordVerbs : list string :=
  List.filter (fun verb => negb (JS.includes verb " ")) ACTION_VERBS.

Section DeadVerbs.

Lemma hasNo_upTo stop c s : stop c = true -> hasNo c (upTo stop s).
Proof.
  intros Hc. induction s as [|a s IH]; cbn [upTo]; [apply hasNo_empty|].
  destruct (stop a) eqn:Ha; [apply hasNo_empty|].
  apply hasNo_cons. split; [congruence|exact IH].
Qed.

Lemma lowerUnit_space c : JS.lowerUnit c = " "%char -> c = " "%char.
Proof.
  destruct c as [[] [] [] [] [] [] [] []]; vm_compute; intros H;
    first [reflexivity|discriminate H].
Qed.

Lemma hasNo_space_toLowerCase s : hasNo " " s -> hasNo " " (JS.toLowerCase s).
Proof.
  induction s as [|a s IH]; [trivial|]. cbn [JS.toLowerCase].
  rewrite !hasNo_cons. intros [Ha Hs]. split; [|auto].
  intros Hl. apply Ha, lowerUnit_space, Hl.
Qed.

(** A word with no space in it begins with no verb that has one. *)
Lemma startsWith_spaced_verb word verb :
  hasNo " " word -> JS.includes verb " " = true -> JS.startsWith word verb = false.
Proof.
  intros Hword Hverb. destruct (JS.startsWith word verb) eqn:Hsw; [|reflexivity].
  exfalso. apply startsWith_iff in Hsw as [rest ->].
  apply includes_iff in Hverb as (a & b & ->).
  apply hasNo_append in Hword as [Hword _]. apply hasNo_append in Hword as [_ Hword].
  apply hasNo_append in Hword as [Hword _]. apply Hword. left. reflexivity.
Qed.

Lemma existsb_filter {A : Type} (f keep : A -> bool) (l : list A) :
  (forall x, In x l -> keep x = false -> f x = false) ->
  existsb f (List.filter keep l) = existsb f l.
Proof.
  induction l as [|x l IH]; intros H; [reflexivity|]. cbn [List.filter existsb].
  destruct (keep x) eqn:Hx; cbn [existsb];
    rewrite IH by (intros y Hy; apply H; right; exact Hy); [reflexivity|].
  rewrite (H x) by (auto; left; reflexivity). reflexivity.
Qed.

End DeadVerbs.

(** X9: the word [validateIsActionable] tests is cut at the first space,
    so it begins with none of the entries "look up", "set up", "take out"
    and "go to": the validator passes exactly when the lower-cased first
    token begins with one of the entries that have no space, and a text
    whose first token is "Look", "Set", "Take" or "Go" in any case is
    rejected. *)
Theorem spaced_verbs_never_match :
  (forall text word rest verb,
      JS.split " " (JS.trim text) = word :: rest ->
      JS.includes verb " " = true ->
      JS.startsWith (JS.toLowerCase word) verb = false) /\
  (forall verb,
      In verb ACTION_VERBS ->
      In verb singleWordVerbs \/ In verb ["look up"; "set up"; "take out"; "go to"]) /\
  (forall text,
      validateIsActionable text = Ok tt <->
      exists verb rest,
        In verb singleWordVerbs /\ JS.toLowerCase (firstToken text) = verb +:+ rest) /\
  (forall text,
      In (JS.toLowerCase (firstToken text)) ["look"; "set"; "take"; "go"] ->
      validateIsActionable text = Throw (Error (notActionableMessage text))).
Proof.
  assert (Hiff : forall text,
             validateIsActionable text = Ok tt <->
             exists verb rest,
               In verb singleWordVerbs /\
               JS.toLowerCase (firstToken text) = verb +:+ rest).
  { intros text. rewrite validateIsActionable_token.
    assert (Hsame :
              existsb (fun verb => JS.startsWith (JS.toLowerCase (firstToken text)) verb)
                ACTION_VERBS
              = existsb (fun verb => JS.startsWith (JS.toLowerCase (firstToken text)) verb)
                  singleWordVerbs).
    { unfold singleWordVerbs. symmetry. apply existsb_filter.
      intros verb _ Hkeep. apply negb_false_iff in Hkeep.
      apply startsWith_spaced_verb; [|exact Hkeep].
      apply hasNo_space_toLowerCase, hasNo_upTo. reflexivity. }
    rewrite Hsame.
    destruct (existsb _ singleWordVerbs) eqn:Hex.
    - split; [intros _|reflexivity]. apply existsb_exists in Hex as (verb & Hin & Hsw).
      apply startsWith_iff in Hsw as [rest Heq]. eauto.
    - split; [discriminate|]. intros (verb & rest & Hin & Heq). exfalso.
      assert (Hex' : existsb
                       (fun verb => JS.startsWith (JS.toLowerCase (firstToken text)) verb)
                       singleWordVerbs = true).
      { apply existsb_exists. exists verb. split; [exact Hin|].
        apply startsWith_iff. eauto. }
      congruence. }
  split; [|split; [|split; [exact Hiff|]]].
  - intros text word rest verb Hsplit Hverb.
    destruct (split_head " " (JS.trim text)) as [ws Hhead].
    rewrite Hhead in Hsplit. injection Hsplit as <- _.
    apply startsWith_spaced_verb; [|exact Hverb].
    apply hasNo_space_toLowerCase, hasNo_upTo. reflexivity.
  - intros verb Hin.
    assert (Hall : forallb
                     (fun v =>
                        existsb (String.eqb v) singleWordVerbs
                        || existsb (String.eqb v) ["look up"; "set up"; "take out"; "go to"])
                     ACTION_VERBS = true) by (vm_compute; reflexivity).
    rewrite forallb_forall in Hall. specialize (Hall verb Hin).
    apply orb_true_iff in Hall as [H|H]; [left|right];
      apply existsb_exists in H as (v & Hv & Heq);
      apply String.eqb_eq in Heq; subst v; exact Hv.
  - intros text Hin.
    destruct (validateIsActionable text) as [[]|e|] eqn:Hv.
    + exfalso. apply Hiff in Hv as (verb & rest & Hverb & Heq).
      assert (Hsw : JS.startsWith (JS.toLowerCase (firstToken text)) verb = true)
        by (apply startsWith_iff; eauto).
      assert (Hnone : forall w,
                 In w ["look"; "set"; "take"; "go"] ->
                 existsb (fun verb => JS.startsWith w verb) singleWordVerbs = false).
      { intros w Hw. cbn [In] in Hw.
        repeat (destruct Hw as [<-|Hw]; [vm_compute; reflexivity|]). destruct Hw. }
      specialize (Hnone _ Hin).
      assert (Hex : existsb
                      (fun verb => JS.startsWith (JS.toLowerCase (firstToken text)) verb)
                      singleWordVerbs = true)
        by (apply existsb_exists; eauto).
      congruence.
    + rewrite validateIsActionable_token in Hv.
      destruct (existsb _ ACTION_VERBS); [discriminate|congruence].
    + rewrite validateIsActionable_token in Hv.
      destruct (existsb _ ACTION_VERBS); discriminate.
Qed.

Lemma spaced_verbs_never_match_witness :
  JS.toLowerCase (firstToken "  Set up your desk.") = "set" /\
  validateIsActionable "  Set up your desk."
  = Throw (Error (notActionableMessage "  Set up your desk.")).
Proof.
  split; [vm_compute; reflexivity|].
  apply (proj2 (proj2 (proj2 spaced_verbs_never_match))).
  right. left. vm_compute. reflexivity.
Defined.

(** *** Letter case and surrounding white space *)

(** The single-sentence verdict: no terminator, or only white space after
    the first one. *)
Definition singleSentenceOk (text : string) : bool :=
  match restAfterFirstTerminator text with
  | None => true
  | Some rest => allWhiteSpace rest
  end.



Section CaseAndSpace.

Implicit Types (s t w p text : string) (c : ascii).

Lemma lowerUnit_idempotent c : JS.lowerUnit (JS.lowerUnit c) = JS.lowerUnit c.
Proof. destruct c as [[] [] [] [] [] [] [] []]; vm_compute; reflexivity. Qed.

Lemma isWhiteSpace_lowerUnit c : JS.isWhiteSpace (JS.lowerUnit c) = JS.isWhiteSpace c.
Proof. destruct c as [[] [] [] [] [] [] [] []]; vm_compute; reflexivity. Qed.

Lemma isTerminator_lowerUnit c : isTerminator (JS.lowerUnit c) = isTerminator c.
Proof. destruct c as [[] [] [] [] [] [] [] []]; vm_compute; reflexivity. Qed.


Lemma toLowerCase_idempotent s : JS.toLowerCase (JS.toLowerCase s) = JS.toLowerCase s.
Proof.
  induction s as [|c s IH]; [reflexivity|]. cbn [JS.toLowerCase].
  rewrite lowerUnit_idempotent, IH. reflexivity.
Qed.

Lemma toLowerCase_append s t :
  JS.toLowerCase (s +:+ t) = JS.toLowerCase s +:+ JS.toLowerCase t.
Proof.
  induction s as [|c s IH]; [reflexivity|].
  rewrite append_cons. cbn [JS.toLowerCase]. rewrite IH. reflexivity.
Qed.

Lemma toLowerCase_trimStart s : JS.toLowerCase (JS.trimStart s) = JS.trimStart (JS.toLowerCase s).
Proof.
  induction s as [|c s IH]; [reflexivity|]. cbn [JS.trimStart JS.toLowerCase].
  rewrite isWhiteSpace_lowerUnit. destruct (JS.isWhiteSpace c); [exact IH|reflexivity].
Qed.

Lemma toLowerCase_trimEnd s : JS.toLowerCase (JS.trimEnd s) = JS.trimEnd (JS.toLowerCase s).
Proof.
  induction s as [|c s IH]; [reflexivity|]. cbn [JS.trimEnd JS.toLowerCase].
  rewrite <- IH, isWhiteSpace_lowerUnit.
  destruct (JS.trimEnd s) as [|a t]; cbn [JS.toLowerCase]; [|reflexivity].
  destruct (JS.isWhiteSpace c); reflexivity.
Qed.

Lemma toLowerCase_trim s : JS.toLowerCase (JS.trim s) = JS.trim (JS.toLowerCase s).
Proof. unfold JS.trim. rewrite toLowerCase_trimEnd, toLowerCase_trimStart. reflexivity. Qed.

Lemma toLowerCase_upTo s :
  JS.toLowerCase (upTo JS.isWhiteSpace s) = upTo JS.isWhiteSpace (JS.toLowerCase s).
Proof.
  induction s as [|c s IH]; [reflexivity|]. cbn [upTo JS.toLowerCase].
  rewrite isWhiteSpace_lowerUnit. destruct (JS.isWhiteSpace c); [reflexivity|].
  cbn [JS.toLowerCase]. rewrite IH. reflexivity.
Qed.

Lemma toLowerCase_firstToken text :
  JS.toLowerCase (firstToken text) = firstToken (JS.toLowerCase text).
Proof. unfold firstToken. rewrite toLowerCase_upTo, toLowerCase_trim. reflexivity. Qed.

Lemma allWhiteSpace_toLowerCase s : allWhiteSpace (JS.toLowerCase s) = allWhiteSpace s.
Proof.
  induction s as [|c s IH]; [reflexivity|]. cbn [JS.toLowerCase allWhiteSpace].
  rewrite isWhiteSpace_lowerUnit, IH. reflexivity.
Qed.

Lemma allWhiteSpace_append s t :
  allWhiteSpace (s +:+ t) = allWhiteSpace s && allWhiteSpace t.
Proof.
  induction s as [|c s IH]; [reflexivity|]. rewrite append_cons. cbn [allWhiteSpace].
  rewrite IH, andb_assoc. reflexivity.
Qed.

Lemma restAfterFirstTerminator_toLowerCase s :
  restAfterFirstTerminator (JS.toLowerCase s)
  = option_map JS.toLowerCase (restAfterFirstTerminator s).
Proof.
  induction s as [|c s IH]; [reflexivity|].
  cbn [JS.toLowerCase restAfterFirstTerminator]. rewrite isTerminator_lowerUnit.
  destruct (isTerminator c); [reflexivity|exact IH].
Qed.

(** The trimmed string is not empty exactly when the string is not all
    white space. *)
Lemma trim_length_allWhiteSpace s :
  (0 <? String.length (JS.trim s))%nat = negb (allWhiteSpace s).
Proof.
  destruct (allWhiteSpace s) eqn:Hall; cbn [negb].
  - destruct (0 <? String.length (JS.trim s))%nat eqn:Hlen; [|reflexivity].
    apply trim_nonempty, allWhiteSpace_false in Hlen. congruence.
  - apply trim_nonempty, allWhiteSpace_false. exact Hall.
Qed.

(** The three verdicts as functions of the text. *)
Lemma validateIsActionable_isOk text :
  isOk (validateIsActionable text)
  = existsb (fun verb => JS.startsWith (firstToken (JS.toLowerCase text)) verb) ACTION_VERBS.
Proof.
  rewrite validateIsActionable_token, toLowerCase_firstToken.
  destruct (existsb _ _); reflexivity.
Qed.

Lemma validateIsShort_isOk text :
  isOk (validateIsShort text)
  = negb (existsb (fun word => JS.includes (JS.toLowerCase text) word) RED_FLAG_PHRASES).
Proof. unfold validateIsShort. destruct (existsb _ _); reflexivity. Qed.

Lemma validateIsSingleSentence_isOk text :
  isOk (validateIsSingleSentence text) = singleSentenceOk text.
Proof.
  rewrite validateIsSingleSentence_scan. unfold singleSentenceOk.
  destruct (restAfterFirstTerminator text) as [rest|]; [|reflexivity].
  rewrite trim_length_allWhiteSpace. destruct (allWhiteSpace rest); reflexivity.
Qed.

Lemma singleSentenceOk_toLowerCase text :
  singleSentenceOk (JS.toLowerCase text) = singleSentenceOk text.
Proof.
  unfold singleSentenceOk. rewrite restAfterFirstTerminator_toLowerCase.
  destruct (restAfterFirstTerminator text) as [rest|]; [|reflexivity].
  cbn [option_map]. apply allWhiteSpace_toLowerCase.
Qed.

Lemma validate_toLowerCase v text :
  isOk (validate v (JS.toLowerCase text)) = isOk (validate v text).
Proof.
  destruct v; cbn [validate].
  - rewrite !validateIsActionable_isOk, toLowerCase_idempotent. reflexivity.
  - rewrite !validateIsShort_isOk, toLowerCase_idempotent. reflexivity.
  - rewrite !validateIsSingleSentence_isOk. apply singleSentenceOk_toLowerCase.
Qed.

Lemma runValidators_isOk text :
  isOk (runValidators text) = forallb (fun v => isOk (validate v text)) codePipeline.
Proof.
  unfold runValidators, codePipeline. cbn [forallb validate].
  destruct (validateIsActionable text) as [[]| |]; [|reflexivity..].
  destruct (validateIsShort text) as [[]| |]; [|reflexivity..].
  cbn [mbind outcome_bind isOk andb].
  destruct (validateIsSingleSentence text) as [[]| |]; reflexivity.
Qed.

Lemma forallb_agree {A : Type} (f g : A -> bool) (l : list A) :
  (forall x, f x = g x) -> forallb f l = forallb g l.
Proof.
  intros H. induction l as [|x l IH]; [reflexivity|]. cbn [forallb].
  rewrite H, IH. reflexivity.
Qed.

End CaseAndSpace.

(** X10: the validators do not look at letter case: two texts with the
    same lower-cased form get the same verdict from each of the three
    validators, and so from the pipeline. *)
Theorem verdicts_ignore_case (text1 text2 : string) :
  JS.toLowerCase text1 = JS.toLowerCase text2 ->
  (forall v, isOk (validate v text1) = isOk (validate v text2)) /\
  isOk (runValidators text1) = isOk (runValidators text2).
Proof.
  intros Hsame.
  assert (Hv : forall v, isOk (validate v text1) = isOk (validate v text2)).
  { intros v. rewrite <- (validate_toLowerCase v text1), <- (validate_toLowerCase v text2).
    rewrite Hsame. reflexivity. }
  split; [exact Hv|]. rewrite !runValidators_isOk. apply forallb_agree. exact Hv.
Qed.

Lemma verdicts_ignore_case_witness :
  JS.toLowerCase "FINISH THE REPORT." = JS.toLowerCase "Finish the report." /\
  isOk (runValidators "FINISH THE REPORT.") = false /\
  isOk (runValidators "Finish the report.") = false.
Proof.
  assert (H : JS.toLowerCase "FINISH THE REPORT." = JS.toLowerCase "Finish the report.")
    by (vm_compute; reflexivity).
  split; [exact H|]. split.
  - rewrite (proj2 (verdicts_ignore_case _ _ H)). vm_compute. reflexivity.
  - vm_compute. reflexivity.
Defined.

Section Padding.

Implicit Types (s t w p text : string) (c : ascii).


















End Padding.



Section MoreValidators.

Lemma restAfterFirstTerminator_suffix a t rest :
  isTerminator t = true ->
  exists x, restAfterFirstTerminator (a +:+ String t rest) = Some (x +:+ rest).
Proof.
  intros Ht. induction a as [|c a [x IH]].
  - exists EmptyString. rewrite append_empty_l. cbn [restAfterFirstTerminator].
    rewrite Ht. reflexivity.
  - rewrite append_cons. cbn [restAfterFirstTerminator].
    destruct (isTerminator c); [|exists x; exact IH].
    exists (a +:+ String t EmptyString). rewrite append_assoc. reflexivity.
Qed.

Lemma validateIsSingleSentence_throws text :
  singleSentenceOk text = false ->
  validateIsSingleSentence text = Throw (Error (notSingleSentenceMessage text)).
Proof.
  intros H. rewrite <- validateIsSingleSentence_isOk in H.
  destruct (single_sentence_outcomes text) as [Hok|Hthrow]; [|exact Hthrow].
  rewrite Hok in H. discriminate.
Qed.

Lemma validateIsShort_throws text :
  validateIsShort text = Throw (Error (tooLargeMessage text)) <-> containsRedFlag text.
Proof.
  rewrite <- containsRedFlag_iff. unfold validateIsShort.
  destruct (existsb _ _); split; congruence.
Qed.

End MoreValidators.

(** X12: a text in which a terminator is directly followed by a character
    that is not white space is rejected by the single-sentence validator,
    wherever that is in the text: an ellipsis, "?!", a decimal number or
    an abbreviation with inner full stops make a suggestion fail. *)
Theorem terminator_then_text_rejected (before after : string) (t c : ascii) :
  isTerminator t = true -> JS.isWhiteSpace c = false ->
  validateIsSingleSentence (before +:+ String t (String c after))
  = Throw (Error (notSingleSentenceMessage (before +:+ String t (String c after)))).
Proof.
  intros Ht Hc. apply validateIsSingleSentence_throws. unfold singleSentenceOk.
  destruct (restAfterFirstTerminator_suffix before t (String c after) Ht) as [x ->].
  rewrite allWhiteSpace_append. cbn [allWhiteSpace]. rewrite Hc.
  apply andb_false_r.
Qed.

Lemma terminator_then_text_rejected_witness :
  isTerminator "." = true /\ JS.isWhiteSpace "." = false /\
  validateIsSingleSentence "Write 2.5 pages"
  = Throw (Error (notSingleSentenceMessage "Write 2.5 pages")) /\
  validateIsSingleSentence "Open the file..."
  = Throw (Error (notSingleSentenceMessage "Open the file...")).
Proof.
  split; [reflexivity|]. split; [reflexivity|]. split.
  - exact (terminator_then_text_rejected "Write 2" " pages" "." "5" eq_refl eq_refl).
  - exact (terminator_then_text_rejected "Open the file" "." "." "." eq_refl eq_refl).
Defined.

(** X13: a text that the bounded-scope validator rejects is rejected
    inside any longer text: adding words before or after a red-flag
    phrase never makes a suggestion pass. *)
Theorem red_flag_survives_embedding (before text after : string) :
  validateIsShort text = Throw (Error (tooLargeMessage text)) ->
  validateIsShort (before +:+ text +:+ after)
  = Throw (Error (tooLargeMessage (before +:+ text +:+ after))).
Proof.
  rewrite !validateIsShort_throws. intros (phrase & pre & post & Hin & Heq).
  exists phrase, (JS.toLowerCase before +:+ pre), (post +:+ JS.toLowerCase after).
  split; [exact Hin|]. rewrite !toLowerCase_append, Heq, !append_assoc. reflexivity.
Qed.

Lemma red_flag_survives_embedding_witness :
  validateIsShort "finish the" = Throw (Error (tooLargeMessage "finish the")) /\
  validateIsShort ("Open the file and " +:+ "finish the" +:+ " first page.")
  = Throw (Error (tooLargeMessage ("Open the file and " +:+ "finish the" +:+ " first page."))).
Proof.
  assert (H : validateIsShort "finish the" = Throw (Error (tooLargeMessage "finish the")))
    by reflexivity.
  split; [exact H|].
  exact (red_flag_survives_embedding "Open the file and " "finish the" " first page." H).
Defined.

(** ** Round trip through the response format *)

(** The text can stand in a JSON string literal as it is: no control
    character, no double quote, no reverse solidus. *)
Fixpoint needsNoEscape (text : string) : bool :=
  match text with
  | EmptyString => true
  | String c text' =>
      let n := N_of_ascii c in
      (32 <=? n)%N && negb (n =? 34)%N && negb (n =? 92)%N && needsNoEscape text'
  end.

Section RoundTrip.

Import JSON.

Lemma textOfUnits_unitsOfText text : textOfUnits (unitsOfText text) = Some text.
Proof.
  unfold unitsOfText. induction text as [|c text IH]; [reflexivity|].
  cbn [list_ascii_of_string map textOfUnits].
  pose proof (N_ascii_bounded c) as Hc. apply N.ltb_lt in Hc. rewrite Hc, IH.
  rewrite ascii_N_embedding. reflexivity.
Qed.

Lemma stringChars_plain text rest :
  needsNoEscape text = true ->
  stringChars (text +:+ String "034" rest) = Some (unitsOfText text, rest).
Proof.
  unfold unitsOfText. induction text as [|c text IH]; [reflexivity|].
  cbn [needsNoEscape]. intros H.
  apply andb_true_iff in H as [H Htext]. apply andb_true_iff in H as [H H92].
  apply andb_true_iff in H as [H32 H34].
  rewrite append_cons. cbn [stringChars list_ascii_of_string map].
  apply negb_true_iff in H34, H92. rewrite H34, H92.
  assert (Hlt : (N_of_ascii c <? 32)%N = false)
    by (apply N.ltb_ge, N.leb_le; exact H32).
  rewrite Hlt, (IH Htext). reflexivity.
Qed.

Lemma cleanResponse_shape text :
  cleanResponse text
  = String "{" (String "034" ("suggestion" +:+ String "034" (String ":" (String " "
      (String "034" (text +:+ String "034" (String "}" EmptyString))))))).
Proof.
  unfold cleanResponse, q, JS.dq. rewrite !append_assoc. reflexivity.
Qed.

Lemma value_open_object n rest :
  value (S n) (String "{" (String "034" rest))
  = match members n (String "034" rest) with
    | Parsed ms r => Parsed (JObject ms) r
    | Invalid => Invalid
    | OutOfFuel => OutOfFuel
    end.
Proof. reflexivity. Qed.

Lemma members_suggestion n text rest :
  needsNoEscape text = true ->
  members (S (S n))
    (String "034" ("suggestion" +:+ String "034" (String ":" (String " "
       (String "034" (text +:+ String "034" (String "}" rest)))))))
  = Parsed [(unitsOfText "suggestion", JString (unitsOfText text))] rest.
Proof.
  intros Hplain.
  change (members (S (S n)) (String "034" ?r))
    with (match stringChars r with
          | Some (key, r1) =>
              match skipWS r1 with
              | String c r2 =>
                  if (N_of_ascii c =? 58)%N then
                    match value (S n) r2 with
                    | Parsed v r3 =>
                        match skipWS r3 with
                        | String d r4 =>
                            if (N_of_ascii d =? 44)%N then
                              match members (S n) r4 with
                              | Parsed ms r5 => Parsed ((key, v) :: ms) r5
                              | Invalid => Invalid
                              | OutOfFuel => OutOfFuel
                              end
                            else if (N_of_ascii d =? 125)%N then Parsed [(key, v)] r4
                            else Invalid
                        | EmptyString => Invalid
                        end
                    | Invalid => Invalid
                    | OutOfFuel => OutOfFuel
                    end
                  else Invalid
              | EmptyString => Invalid
              end
          | None => Invalid
          end).
  rewrite (stringChars_plain "suggestion") by reflexivity.
  change (skipWS (String ":" ?r)) with (String ":" r). cbv beta iota.
  change (N_of_ascii ":" =? 58)%N with true. cbv beta iota.
  change (value (S n) (String " " (String "034" ?r)))
    with (match stringChars r with
          | Some (us, r') => Parsed (JString us) r'
          | None => @Invalid json
          end).
  rewrite (stringChars_plain text) by exact Hplain.
  reflexivity.
Qed.

Lemma parse_cleanResponse text :
  needsNoEscape text = true ->
  parse (cleanResponse text)
  = Ok (JObject [(unitsOfText "suggestion", JString (unitsOfText text))]).
Proof.
  intros Hplain. unfold parse.
  assert (Hfuel : exists k, fuelFor (cleanResponse text) = S (S (S k))).
  { unfold fuelFor. rewrite cleanResponse_shape. cbn [String.length].
    eexists. rewrite Nat.add_1_r. cbn [Nat.mul Nat.add]. reflexivity. }
  destruct Hfuel as [k ->]. rewrite cleanResponse_shape.
  rewrite value_open_object, (members_suggestion k text EmptyString Hplain). reflexivity.
Qed.

Lemma regexMatch_whole mid :
  regexMatch ("{" +:+ mid +:+ "}") = Some ("{" +:+ mid +:+ "}").
Proof.
  apply regexMatch_some. exists EmptyString, mid, EmptyString.
  rewrite append_empty_l. split; [|split; [apply hasNo_empty|split;
    [apply hasNo_empty|reflexivity]]].
  change ("}" +:+ EmptyString) with "}". reflexivity.
Qed.

Lemma cleanResponse_braces text :
  cleanResponse text = "{" +:+ (q "suggestion" +:+ ": " +:+ q text) +:+ "}".
Proof. unfold cleanResponse. rewrite !append_assoc. reflexivity. Qed.

Lemma extractSuggestion_cleanResponse text :
  needsNoEscape text = true ->
  extractSuggestion (cleanResponse text) = Ok (unitsOfText text).
Proof.
  intros Hplain. unfold extractSuggestion.
  assert (Hmatch : regexMatch (cleanResponse text) = Some (cleanResponse text)).
  { rewrite cleanResponse_braces. apply regexMatch_whole. }
  rewrite Hmatch, (parse_cleanResponse text Hplain). reflexivity.
Qed.

End RoundTrip.

(** X14: a response in the format the prompt asks for, an object with the
    one member [suggestion], gives back the text it was written with when
    that text needs no escape; text around it that has no opening brace
    before and no closing brace after changes nothing; and when the text
    passes the validators [parseAndStoreSuggestion] stores exactly that
    text for the user and the task. *)
Theorem clean_response_round_trip (text : string) :
  needsNoEscape text = true ->
  extractSuggestion (cleanResponse text) = Ok (unitsOfText text) /\
  textOfUnits (unitsOfText text) = Some text /\
  (forall pre post,
      hasNo "{" pre -> hasNo "}" post ->
      extractSuggestion (pre +:+ cleanResponse text +:+ post) = Ok (unitsOfText text)) /\
  (forall this user task,
      runValidators text = Ok tt ->
      parseAndStoreSuggestion this (cleanResponse text) user task
      = (Ok tt,
         {| currentTasks := currentTasks this;
            suggestions :=
              <[id user := {| forTask := task; suggestionText := text |}]>
                (suggestions this) |})).
Proof.
  intros Hplain.
  pose proof (extractSuggestion_cleanResponse text Hplain) as Hext.
  split; [exact Hext|]. split; [apply textOfUnits_unitsOfText|]. split.
  - intros pre post Hpre Hpost. rewrite <- Hext, cleanResponse_braces.
    rewrite <- (extractSuggestion_surrounded pre _ post Hpre Hpost).
    rewrite !append_assoc. reflexivity.
  - intros this user task Hv. unfold parseAndStoreSuggestion.
    rewrite Hext, textOfUnits_unitsOfText, Hv. reflexivity.
Qed.

Lemma clean_response_round_trip_witness :
  needsNoEscape listThree = true /\
  parseAndStoreSuggestion afterSet (cleanResponse listThree) alice vagueTask
  = (Ok tt,
     {| currentTasks := currentTasks afterSet;
        suggestions := <[id alice := storedSuggestion]> (suggestions afterSet) |}).
Proof.
  split; [reflexivity|].
  apply (proj2 (proj2 (proj2 (clean_response_round_trip listThree eq_refl)))).
  vm_compute. reflexivity.
Defined.

(** ** [displayFocus] *)

(** U+1F3AF and U+1F4A1, each as its two UTF-16 code units. *)
Definition targetEmoji : list N := [55356; 57263]%N.
Definition bulbEmoji : list N := [55357; 56481]%N.

Definition ruleLine : string := "===================================".

(** The strings [displayFocus] passes to [console.log], in order. *)
Definition displayFocus (this : Focus) (user : User) : list (list N) :=
  let task := currentTasks this !! id user in
  let suggestion := suggestions this !! id user in
  [ [10%N] ++ targetEmoji ++ unitsOfText (" Current Focus for User: " +:+ id user);
    unitsOfText ruleLine ]
  ++ match task with
     | Some task =>
         unitsOfText ("TASK: " +:+ description task)
         :: match suggestion with
            | Some suggestion =>
                [ bulbEmoji
                  ++ unitsOfText (" FIRST STEP: " +:+ suggestionText suggestion) ]
            | None => [ unitsOfText "(No first step generated yet)" ]
            end
     | None => [ unitsOfText "No task currently in focus." ]
     end
  ++ [ unitsOfText (ruleLine +:+ newline) ].

Definition displayHeader (user : User) : list N :=
  [10%N] ++ targetEmoji ++ unitsOfText (" Current Focus for User: " +:+ id user).

(** X15: right after [setCurrentTask] the display shows the task and that
    no first step was generated yet, whatever was stored before; right
    after [clearCurrentTask] it shows that no task is in focus. *)
Theorem display_after_task_change (this : Focus) (user : User) (task : Task) :
  displayFocus (setCurrentTask this user task) user
  = [ displayHeader user;
      unitsOfText ruleLine;
      unitsOfText ("TASK: " +:+ description task);
      unitsOfText "(No first step generated yet)";
      unitsOfText (ruleLine +:+ newline) ] /\
  displayFocus (clearCurrentTask this user) user
  = [ displayHeader user;
      unitsOfText ruleLine;
      unitsOfText "No task currently in focus.";
      unitsOfText (ruleLine +:+ newline) ].
Proof.
  unfold displayFocus, setCurrentTask, clearCurrentTask.
  cbn [currentTasks suggestions].
  rewrite lookup_insert_eq, !lookup_delete_eq. split; reflexivity.
Qed.

(** X16: in a reachable state in which a suggestion is stored for the
    user, the display shows the task the suggestion was generated for and,
    under it, the first-step line with the text of the suggestion: no
    stored suggestion is hidden, and none is shown under another task. *)
Theorem display_shows_stored_suggestion (this : Focus) (user : User)
    (s : FirstStepSuggestion) :
  reachable this ->
  getSuggestion this user = Some s ->
  displayFocus this user
  = [ displayHeader user;
      unitsOfText ruleLine;
      unitsOfText ("TASK: " +:+ description (forTask s));
      bulbEmoji ++ unitsOfText (" FIRST STEP: " +:+ suggestionText s);
      unitsOfText (ruleLine +:+ newline) ].
Proof.
  intros Hreach Hs. unfold displayFocus.
  unfold getSuggestion in Hs.
  rewrite (reachable_suggestion_for_current this Hreach (id user) s Hs), Hs.
  reflexivity.
Qed.

Lemma display_shows_stored_suggestion_witness :
  reachable afterGenerate /\
  getSuggestion afterGenerate alice = Some storedSuggestion /\
  displayFocus afterGenerate alice
  = [ displayHeader alice;
      unitsOfText ruleLine;
      unitsOfText "TASK: Get organized for the week";
      bulbEmoji ++ unitsOfText (" FIRST STEP: " +:+ listThree);
      unitsOfText (ruleLine +:+ newline) ].
Proof.
  split; [exact afterGenerate_reachable|].
  split; [exact afterGenerate_suggestion|].
  exact (display_shows_stored_suggestion afterGenerate alice storedSuggestion
           afterGenerate_reachable afterGenerate_suggestion).
Defined.

(** ** A closing brace after the response object *)

Section TrailingBrace.

Import JSON.

Lemma skipWS_ends_with_brace mid :
  exists c r, skipWS (mid +:+ "}") = String c r.
Proof.
  induction mid as [|a mid IH].
  - exists "}"%char, EmptyString. reflexivity.
  - rewrite append_cons. cbn [skipWS]. destruct (isWS a); [exact IH|eauto].
Qed.

Lemma cleanResponse_then text rest :
  cleanResponse text +:+ rest
  = String "{" (String "034" ("suggestion" +:+ String "034" (String ":" (String " "
      (String "034" (text +:+ String "034" (String "}" rest))))))).
Proof. unfold cleanResponse, q, JS.dq. rewrite !append_assoc. reflexivity. Qed.

Lemma parse_cleanResponse_then_brace text mid :
  needsNoEscape text = true ->
  parse (cleanResponse text +:+ mid +:+ "}") = Throw SyntaxError.
Proof.
  intros Hplain. unfold parse. rewrite cleanResponse_then.
  assert (Hfuel : exists k,
             fuelFor
               (String "{" (String "034" ("suggestion" +:+ String "034" (String ":"
                  (String " " (String "034"
                     (text +:+ String "034" (String "}" (mid +:+ "}"))))))))) = S (S (S k))).
  { unfold fuelFor. cbn [String.length]. eexists. rewrite Nat.add_1_r.
    cbn [Nat.mul Nat.add]. reflexivity. }
  destruct Hfuel as [k ->].
  rewrite value_open_object, (members_suggestion k text _ Hplain).
  destruct (skipWS_ends_with_brace mid) as (c & r & ->). reflexivity.
Qed.

End TrailingBrace.

(** X17: the span always runs to the last closing brace, so a complete
    response object that is followed by anything with a closing brace in
    it, a second object or prose with braces, is not extracted: the call
    throws the [SyntaxError] of [JSON.parse] and stores nothing. *)
Theorem brace_after_response_throws (text mid : string) :
  needsNoEscape text = true ->
  (forall pre,
      hasNo "{" pre ->
      extractSuggestion (pre +:+ cleanResponse text +:+ mid +:+ "}") = Throw SyntaxError) /\
  (forall this user task,
      parseAndStoreSuggestion this (cleanResponse text +:+ mid +:+ "}") user task
      = (Throw SyntaxError, this)).
Proof.
  intros Hplain.
  assert (Hshape : cleanResponse text +:+ mid +:+ "}"
                   = "{" +:+ (q "suggestion" +:+ ": " +:+ q text +:+ "}" +:+ mid) +:+ "}").
  { unfold cleanResponse. rewrite !append_assoc. reflexivity. }
  assert (Hext : extractSuggestion (cleanResponse text +:+ mid +:+ "}") = Throw SyntaxError).
  { unfold extractSuggestion.
    assert (Hmatch : regexMatch (cleanResponse text +:+ mid +:+ "}")
                     = Some (cleanResponse text +:+ mid +:+ "}"))
      by (rewrite Hshape; apply regexMatch_whole).
    rewrite Hmatch, (parse_cleanResponse_then_brace text mid Hplain). reflexivity. }
  split.
  - intros pre Hpre. rewrite <- Hext, Hshape.
    pose proof (extractSuggestion_surrounded pre
                  (q "suggestion" +:+ ": " +:+ q text +:+ "}" +:+ mid) EmptyString
                  Hpre (hasNo_empty _)) as H.
    change ("}" +:+ EmptyString) with "}" in H. exact H.
  - intros this user task. unfold parseAndStoreSuggestion. rewrite Hext. reflexivity.
Qed.

Lemma brace_after_response_throws_witness :
  needsNoEscape "Open the file." = true /\
  parseAndStoreSuggestion afterGenerate
    (cleanResponse "Open the file." +:+ " or " +:+ cleanResponse "Write a title.")
    alice vagueTask
  = (Throw SyntaxError, afterGenerate).
Proof.
  split; [reflexivity|].
  assert (Heq : cleanResponse "Open the file." +:+ " or " +:+ cleanResponse "Write a title."
                = cleanResponse "Open the file."
                    +:+ (" or " +:+ "{" +:+ q "suggestion" +:+ ": " +:+ q "Write a title.")
                    +:+ "}")
    by (vm_compute; reflexivity).
  rewrite Heq.
  apply (proj2 (brace_after_response_throws "Open the file."
                  (" or " +:+ "{" +:+ q "suggestion" +:+ ": " +:+ q "Write a title.")
                  eq_refl)).
Defined.
